(** * mise-backend: recipe extraction pipeline and usage governor

    A shallow embedding of the parts of the backend that decide whether a
    request may trigger a billable extraction and what the extraction
    returns:

    - [JS]          the JavaScript values and string operations the code uses;
    - [Recipes]     services/recipes.js (validation, repair, enhancement,
                    AI extraction, translation);
    - [CONFIG]      config/index.js;
    - [Spending]    services/spending.js (the spending ledger);
    - [Auth]        services/auth.js, [resetMonthlyUsageIfNeeded];
    - [Usage]       services/usage.js (the usage resolver);
    - [RateLimiter] middleware/rateLimiter.js;
    - [Routes]      routes/recipes.js (the extraction endpoints), with the
                    middleware of auth.js and errorHandler.js they pass;
    - [Observe]     the vocabulary of the statements;
    - [Sample]      concrete requests, replies and ledgers;
    - [App]         index.js (the order of the two rate limiters);
    - [Ledger], [Quota], [Text], [Shape]  further vocabulary.

    An asynchronous function is embedded as a function of the state it
    finds and of what the outside answers (the clock, the AI's replies, the
    fetched page), returning its result and the state it leaves: one request
    runs from its first to its last statement.  The properties follow the
    definitions. *)

From Stdlib Require Import ZArith String Ascii List Bool Lia PrimFloat DecimalString.
From stdpp Require Import base option gmap strings list.

Local Open Scope string_scope.
Local Open Scope list_scope.
Local Open Scope Z_scope.

(** ** Exceptions and fallible computations *)

(** What a [throw] (or a rejected promise) carries. *)
Inductive exn : Type :=
| TypeError                  (* property read of null/undefined, call of a non-function *)
| SyntaxError                (* JSON.parse *)
| Error (message : string)   (* new Error(message) *)
| ApiError (status : option Z) (* the AI provider's call rejected; [err.status] *)
| FetchError                 (* fetch() rejected *)
| DbError (message : string) (* pool.query rejected *).

Inductive result (A : Type) : Type :=
| Ok (a : A)
| Throw (e : exn).
Arguments Ok {A} a.
Arguments Throw {A} e.

#[global] Instance result_ret : MRet result := fun _ a => Ok a.

#[global] Instance result_bind : MBind result := fun _ _ k r =>
  match r with
  | Ok a => k a
  | Throw e => Throw e
  end.

(** [try { r } catch (err) { return d }] *)
Definition catch {A : Type} (r : result A) (d : A) : A :=
  match r with
  | Ok a => a
  | Throw _ => d
  end.

Definition is_ok {A : Type} (r : result A) : bool :=
  match r with Ok _ => true | Throw _ => false end.

(** ** JavaScript values and strings *)

Module JS.

(** A value as [JSON.parse] builds it, plus [undefined] (what reading an
    absent property gives).  An object is the list of its own properties in
    insertion order.  Numbers are IEEE doubles. *)
#[warnings="-register-all"]
Inductive jsval : Type :=
| VUndefined
| VNull
| VBool (b : bool)
| VNum (f : float)
| VStr (s : string)
| VArr (l : list jsval)
| VObj (o : list (string * jsval)).

Definition obj : Type := list (string * jsval).

(** The host's built-ins that the code calls on data and that are not code
    of the repository.  [JSON_parse] is only ever applied to a text that
    starts with an opening brace, so when it returns it returns an object;
    [None] is its [SyntaxError].  [ToNumber] is the coercion that [>]
    applies to an operand that is not already a number. *)
Class Runtime : Type := {
  JSON_parse : string -> option obj;
  ToNumber : jsval -> float
}.

(** [o.k] on an object: the own property, or [undefined]. *)
Fixpoint lookup_prop (k : string) (o : obj) : jsval :=
  match o with
  | [] => VUndefined
  | (k', v) :: o' => if String.eqb k k' then v else lookup_prop k o'
  end.

(** [o.k = v]: an existing property keeps its place, a new one is added at
    the end. *)
Fixpoint set_prop (k : string) (v : jsval) (o : obj) : obj :=
  match o with
  | [] => [(k, v)]
  | (k', v') :: o' =>
      if String.eqb k k' then (k', v) :: o' else (k', v') :: set_prop k v o'
  end.

(** [delete o.k] *)
Fixpoint delete_prop (k : string) (o : obj) : obj :=
  match o with
  | [] => []
  | (k', v') :: o' =>
      if String.eqb k k' then delete_prop k o' else (k', v') :: delete_prop k o'
  end.

(** [ToBoolean] *)
Definition truthy (v : jsval) : bool :=
  match v with
  | VUndefined | VNull => false
  | VBool b => b
  | VNum f => negb (PrimFloat.eqb f 0 || PrimFloat.is_nan f)
  | VStr s => negb (String.eqb s "")
  | VArr _ | VObj _ => true
  end.

(** [Array.isArray] *)
Definition isArray (v : jsval) : bool :=
  match v with VArr _ => true | _ => false end.

(** The decimal name of an array index, as the spread of an array names
    its properties. *)
Definition index_key (i : nat) : string :=
  NilEmpty.string_of_uint (Nat.to_uint i).

Fixpoint indexed (i : nat) (l : list jsval) : obj :=
  match l with
  | [] => []
  | v :: l' => (index_key i, v) :: indexed (S i) l'
  end.

(** [{...v}]: the own enumerable properties of [v].  A string never reaches
    a spread in this code. *)
Definition spread (v : jsval) : obj :=
  match v with
  | VObj o => o
  | VArr l => indexed 0 l
  | _ => []
  end.

(** [v.k] for a name [k] other than [length] that no built-in prototype
    defines ([instruction], [ingredients], [source], ...). *)
Definition get (v : jsval) (k : string) : result jsval :=
  match v with
  | VUndefined | VNull => Throw TypeError
  | VObj o => Ok (lookup_prop k o)
  | _ => Ok VUndefined
  end.

(** White space as [String.prototype.trim] sees it, among the code units
    below 256: TAB, LF, VT, FF, CR, SPACE and NBSP.  A character of a
    [string] stands for one UTF-16 code unit. *)
Definition is_white_space (c : ascii) : bool :=
  let n := nat_of_ascii c in
  ((9 <=? n) && (n <=? 13) || (n =? 32) || (n =? 160))%nat.

Fixpoint trimStart (s : string) : string :=
  match s with
  | EmptyString => EmptyString
  | String c s' => if is_white_space c then trimStart s' else s
  end.

Fixpoint trimEnd (s : string) : string :=
  match s with
  | EmptyString => EmptyString
  | String c s' =>
      match trimEnd s' with
      | EmptyString => if is_white_space c then EmptyString else String c EmptyString
      | t => String c t
      end
  end.

Definition trim (s : string) : string := trimEnd (trimStart s).

Definition newline : ascii := ascii_of_nat 10.

(** [s.replace(/FENCE\n?/g, '')] for a literal, non-empty FENCE: every
    occurrence found scanning from the left, together with one line feed
    right after it when there is one, is removed.  [pending] counts the
    characters of the occurrence being removed that are still ahead;
    [Some 0] is the position where the optional line feed may stand. *)
Fixpoint remove_fence (fence : string) (pending : option nat) (s : string) : string :=
  match s with
  | EmptyString => EmptyString
  | String c s' =>
      match pending with
      | Some (S k) => remove_fence fence (Some k) s'
      | _ =>
          if match pending with Some _ => Ascii.eqb c newline | None => false end
          then remove_fence fence None s'
          else if String.prefix fence s
          then remove_fence fence (Some (String.length fence - 1)%nat) s'
          else String c (remove_fence fence None s')
      end
  end.

Definition backticks : string := "```".

(** [text.replace(/```json\n?/g, '').replace(/```\n?/g, '').trim()] *)
Definition strip_fences (text : string) : string :=
  trim (remove_fence backticks None (remove_fence (backticks +:+ "json") None text)).

(** The suffix of [s] that starts at its first opening brace. *)
Fixpoint from_open_brace (s : string) : option string :=
  match s with
  | EmptyString => None
  | String c s' => if Ascii.eqb c "{" then Some s else from_open_brace s'
  end.

(** The longest prefix of [s] that ends with a closing brace. *)
Fixpoint upto_close_brace (s : string) : option string :=
  match s with
  | EmptyString => None
  | String c s' =>
      match upto_close_brace s' with
      | Some t => Some (String c t)
      | None => if Ascii.eqb c "}" then Some (String c EmptyString) else None
      end
  end.

(** [text.match(/\{[\s\S]*\}/)]: leftmost opening brace, then greedily to
    the last closing brace; [None] is JavaScript's [null]. *)
Definition match_braces (text : string) : option string :=
  match from_open_brace text with
  | Some s => upto_close_brace s
  | None => None
  end.

End JS.

Import JS.

(** ** services/recipes.js *)

Module Recipes.

(** The message [anthropic.messages.create] resolves to: [content] may be
    absent, and a block of it may have no [text]. *)
Record ai_message : Type := { content : option (list (option string)) }.

(** The awaited call: a message, or the rejection of the call. *)
Definition ai_reply : Type := result ai_message.

(** [response.content?.map(c => c.text || '').join('') || ''] *)
Definition response_text (response : ai_message) : string :=
  match content response with
  | Some blocks => String.concat "" (map (fun c => default "" c) blocks)
  | None => ""
  end.

(** The [match] of the three lines every AI stage shares:
    [text = text.replace(...).replace(...).trim(); text.match(/\{[\s\S]*\}/)]. *)
Definition find_json (response : ai_message) : option string :=
  match_braces (strip_fences (response_text response)).

Definition MAX_STEP_LENGTH : nat := 400.

(** A small natural number as a double. *)
Definition float_of_nat (n : nat) : float :=
  Nat.iter n (fun x => (x + 1)%float) 0%float.

Section WithRuntime.
Context {rt : Runtime}.

(** [JSON.parse(match[0])] *)
Definition parse (m : string) : result obj :=
  match JSON_parse m with
  | Some o => Ok o
  | None => Throw SyntaxError
  end.

(** [v > n] for a number [n] *)
Definition gt (v : jsval) (n : float) : bool :=
  match v with
  | VUndefined => false
  | VNull => PrimFloat.ltb n 0
  | VBool b => PrimFloat.ltb n (if b then 1 else 0)
  | VNum f => PrimFloat.ltb n f
  | _ => PrimFloat.ltb n (ToNumber v)
  end.

(** [x?.length > n] *)
Definition length_gt (x : jsval) (n : nat) : bool :=
  match x with
  | VUndefined | VNull => false
  | VStr s => (n <? String.length s)%nat
  | VArr l => (n <? length l)%nat
  | VObj o => gt (lookup_prop "length" o) (float_of_nat n)
  | VBool _ | VNum _ => false
  end.

(** [(typeof s === 'string' ? s : s.instruction)?.length > MAX_STEP_LENGTH] *)
Definition step_too_long (s : jsval) : result bool :=
  x ← match s with VStr _ => Ok s | _ => get s "instruction" end;
  mret (length_gt x MAX_STEP_LENGTH).

(** [steps.some(step_too_long)]: stops at the first step that is too long. *)
Fixpoint some_too_long (steps : list jsval) : result bool :=
  match steps with
  | [] => Ok false
  | s :: rest =>
      b ← step_too_long s;
      if b : bool then Ok true else some_too_long rest
  end.

(** [typeof s === 'string' ? { instruction: s, ingredients: [] }
                           : { ...s, ingredients: s.ingredients || [] }] *)
Definition coerce_step (s : jsval) : result jsval :=
  match s with
  | VStr _ => Ok (VObj [("instruction", s); ("ingredients", VArr [])])
  | _ =>
      ing ← get s "ingredients";
      mret (VObj (set_prop "ingredients" (if truthy ing then ing else VArr []) (spread s)))
  end.

(** [s.instruction?.trim().length > 10], on a step that is an object *)
Definition keeps_step (s : jsval) : result bool :=
  x ← get s "instruction";
  match x with
  | VUndefined | VNull => Ok false
  | VStr i => Ok (10 <? String.length (trim i))%nat
  | _ => Throw TypeError
  end.

(** [steps.filter(keeps_step)] *)
Fixpoint filter_steps (steps : list jsval) : result (list jsval) :=
  match steps with
  | [] => Ok []
  | s :: rest =>
      b ← keeps_step s;
      kept ← filter_steps rest;
      mret (if b : bool then s :: kept else kept)
  end.

(** [if (bad(recipe.k)) recipe.k = d] *)
Definition set_default (k : string) (bad : jsval -> bool) (d : jsval) (recipe : obj) : obj :=
  if bad (lookup_prop k recipe) then set_prop k d recipe else recipe.

Definition not_array (v : jsval) : bool := negb (truthy v) || negb (isArray v).

Definition elements (v : jsval) : list jsval :=
  match v with VArr l => l | _ => [] end.

Definition validateAndFixRecipe (recipe : obj) : result (obj * list string) :=
  let recipe := set_default "title" (fun v => negb (truthy v)) (VStr "Recipe") recipe in
  let recipe := set_default "servings" (fun v => negb (truthy v)) (VNum 4) recipe in
  let recipe := set_default "ingredients" not_array (VArr []) recipe in
  let recipe := set_default "steps" not_array (VArr []) recipe in
  let steps := elements (lookup_prop "steps" recipe) in
  let ingredients := elements (lookup_prop "ingredients" recipe) in
  long ← some_too_long steps;
  let issues := if long : bool then ["steps_too_long"] else [] in
  let issues :=
    if (5 <? length ingredients)%nat && (length steps <? 3)%nat
    then issues ++ ["too_few_steps"] else issues in
  steps ← mapM coerce_step steps;
  steps ← filter_steps steps;
  mret (set_prop "steps" (VArr steps) recipe, issues).

(** The repair stage.  The AI is called only when there are issues. *)
Definition fixRecipeIssues (recipe : obj) (issues : list string) (reply : ai_reply) : obj :=
  match issues with
  | [] => recipe
  | _ =>
      catch (response ← reply;
             match find_json response with
             | Some m => parse m
             | None => Ok recipe
             end)
            recipe
  end.

(** The enhancement stage of the fast path. *)
Definition enhanceRecipeWithDualUnits (recipe : obj) (reply : ai_reply) : obj :=
  catch (response ← reply;
         match find_json response with
         | None => Ok recipe
         | Some m =>
             enhanced ← parse m;
             mret (delete_prop "_needsDualUnits" enhanced)
         end)
        recipe.

(** The three lines after the AI call of an initial extraction:
    no match throws [new Error(message)], a match is parsed. *)
Definition parse_or_throw (msg : string) (response : ai_message) : result obj :=
  match find_json response with
  | None => Throw (Error msg)
  | Some m => parse m
  end.

Definition extractRecipeFromUrl (reply : ai_reply) : result obj :=
  response ← reply;
  parse_or_throw "No JSON found in response" response.

(** [photos.slice(0, 4).map(p => p.match(...))]: the photos must be an array
    whose first four entries are strings; what the data URIs hold only
    decides what is sent to the AI. *)
Definition photosToProcess (photos : jsval) : result (list string) :=
  match photos with
  | VArr l => mapM (fun p => match p with VStr s => Ok s | _ => Throw TypeError end) (take 4 l)
  | _ => Throw TypeError
  end.

Definition extractRecipeFromPhotos (photos : jsval) (reply : ai_reply) : result obj :=
  _ ← photosToProcess photos;
  response ← reply;
  parse_or_throw "No JSON found in response" response.

Definition extractRecipeFromYouTube (reply : ai_reply) : result obj :=
  response ← reply;
  parse_or_throw "No JSON found in response" response.

Definition translateRecipe (recipe : jsval) (reply : ai_reply) : result obj :=
  response ← reply;
  translatedRecipe ← parse_or_throw "No valid JSON in response" response;
  source ← get recipe "source";
  sourceUrl ← get recipe "sourceUrl";
  imageUrl ← get recipe "imageUrl";
  mret (set_prop "imageUrl" imageUrl
         (set_prop "sourceUrl" sourceUrl
           (set_prop "source" source translatedRecipe))).

End WithRuntime.

End Recipes.

(** ** config/index.js *)

Module CONFIG.

(** Money is counted in ten-thousandths of a dollar, the resolution of the
    ledger's [DECIMAL(10,4)] columns: 0.03 dollars is 300. *)
Definition dollars (n : Z) : Z := n * 10000.

Definition COST_PER_URL_RECIPE : Z := 300.
Definition COST_PER_PHOTO_RECIPE : Z := 600.
Definition DAILY_SPENDING_LIMIT : Z := dollars 10.
Definition MONTHLY_SPENDING_LIMIT : Z := dollars 100.
Definition INITIAL_FREE_RECIPES : Z := 10.
Definition FREE_RECIPES_PER_MONTH : Z := 3.
Definition BASIC_RECIPES_PER_MONTH : Z := 20.

End CONFIG.

(** ** The wall clock *)

(** [new Date().toISOString()], e.g. ["2026-03-01T00:00:05.123Z"].  The calls
    to [new Date()] within one function are taken at the same instant. *)
Definition instant : Type := string.

(** [.slice(0, 10)] *)
Definition today (now : instant) : string := String.substring 0 10 now.

(** [.slice(0, 7)] *)
Definition currentMonth (now : instant) : string := String.substring 0 7 now.

(** ** services/spending.js *)

Module Spending.

(** The row [id = 1] of [spending_tracker].  [daily_date] is the ISO date
    of the [DATE] column (the server runs in UTC). *)
Record tracker : Type := {
  daily_date : string;
  daily_amount : Z;
  monthly_month : string;
  monthly_amount : Z;
  paused : bool
}.

(** The table: its single row, or no row yet. *)
Definition table : Type := option tracker.

(** A [DECIMAL(10,4)] column holds absolute values below 10^6 dollars;
    storing anything else is refused by the database. *)
Definition fits_decimal (x : Z) : bool := Z.abs x <? 10000000000.

(** The row [INSERT INTO spending_tracker (id) VALUES (1)] creates from the
    column defaults. *)
Definition fresh_row (now : instant) : tracker :=
  {| daily_date := today now; daily_amount := 0;
     monthly_month := currentMonth now; monthly_amount := 0;
     paused := false |}.

(** [CREATE TABLE IF NOT EXISTS ...; INSERT ... ON CONFLICT (id) DO NOTHING] *)
Definition initSpendingTable (now : instant) (db : table) : table :=
  match db with
  | Some row => Some row
  | None => Some (fresh_row now)
  end.

(** The body of [getOrResetSpending] once the row is read: the object
    [tracker] in memory and the row in the table are updated side by side. *)
Definition reset_if_due (now : instant) (row : tracker) : tracker * tracker :=
  let tracker := row in
  let '(tracker, row) :=
    if negb (String.eqb (daily_date tracker) (today now))
    then ({| daily_date := daily_date tracker; daily_amount := 0;
             monthly_month := monthly_month tracker;
             monthly_amount := monthly_amount tracker; paused := paused tracker |},
          {| daily_date := today now; daily_amount := 0;
             monthly_month := monthly_month row;
             monthly_amount := monthly_amount row; paused := paused row |})
    else (tracker, row) in
  if negb (String.eqb (monthly_month tracker) (currentMonth now))
  then ({| daily_date := daily_date tracker; daily_amount := daily_amount tracker;
           monthly_month := monthly_month tracker;
           monthly_amount := 0; paused := false |},
        {| daily_date := daily_date row; daily_amount := daily_amount row;
           monthly_month := currentMonth now;
           monthly_amount := 0; paused := false |})
  else (tracker, row).

(** Returns the tracker object and the table it leaves.  With no row, the
    table is initialised and the function calls itself once more, now
    reading the row just inserted. *)
Definition getOrResetSpending (now : instant) (db : table) : tracker * table :=
  let row :=
    match db with
    | Some row => row
    | None => default (fresh_row now) (initSpendingTable now db)
    end in
  let '(tracker, row) := reset_if_due now row in
  (tracker, Some row).

Definition set_paused (b : bool) (row : tracker) : tracker :=
  {| daily_date := daily_date row; daily_amount := daily_amount row;
     monthly_month := monthly_month row; monthly_amount := monthly_amount row;
     paused := b |}.

Definition checkSpendingLimits (now : instant) (db : table) : bool * table :=
  let '(tracker, db) := getOrResetSpending now db in
  let shouldPause :=
    (CONFIG.DAILY_SPENDING_LIMIT <=? daily_amount tracker)
    || (CONFIG.MONTHLY_SPENDING_LIMIT <=? monthly_amount tracker) in
  let db :=
    if negb (Bool.eqb shouldPause (paused tracker))
    then set_paused shouldPause <$> db else db in
  (shouldPause, db).

(** [UPDATE spending_tracker SET daily_amount = daily_amount + $1,
    monthly_amount = monthly_amount + $1 WHERE id = 1] *)
Definition add_amount (amount : Z) (db : table) : result table :=
  match db with
  | None => Ok None
  | Some row =>
      let d := daily_amount row + amount in
      let m := monthly_amount row + amount in
      if fits_decimal d && fits_decimal m
      then Ok (Some {| daily_date := daily_date row; daily_amount := d;
                       monthly_month := monthly_month row; monthly_amount := m;
                       paused := paused row |})
      else Throw (DbError "numeric field overflow")
  end.

Definition trackSpending (amount : Z) (now : instant) (db : table) : result (bool * table) :=
  db ← add_amount amount db;
  mret (checkSpendingLimits now db).

Definition isSystemPaused (now : instant) (db : table) : bool * table :=
  checkSpendingLimits now db.

(** What [getSpendingStatus] reports: the two accumulators and the flag. *)
Record status : Type := { daily : Z; monthly : Z; status_paused : bool }.

Definition getSpendingStatus (now : instant) (db : table) : status * table :=
  let '(tracker, db) := getOrResetSpending now db in
  let '(paused, db) := checkSpendingLimits now db in
  ({| daily := daily_amount tracker; monthly := monthly_amount tracker;
      status_paused := paused |}, db).

End Spending.

(** ** services/auth.js *)

Module Auth.

(** The columns of a [users] row that the governor reads or writes. *)
Record user : Type := {
  id : Z;
  subscription : option string;
  recipes_used_this_month : Z;
  month_started : option string;
  total_recipes_ever : Z
}.

Definition with_usage (used : Z) (month : option string) (total : Z) (u : user) : user :=
  {| id := id u; subscription := subscription u;
     recipes_used_this_month := used; month_started := month;
     total_recipes_ever := total |}.

(** The [users] table by [id], and what [UPDATE ... WHERE id = $n] does to it. *)
Definition update_user (f : user -> user) (userId : Z) (users : gmap Z user) : gmap Z user :=
  alter f userId users.

Definition start_month (now : instant) (u : user) : user :=
  with_usage 0 (Some (currentMonth now)) (total_recipes_ever u) u.

(** The object [user] is changed in place and returned; the row follows. *)
Definition resetMonthlyUsageIfNeeded (now : instant) (u : user) (users : gmap Z user)
  : user * gmap Z user :=
  if bool_decide (month_started u = Some (currentMonth now))
  then (u, users)
  else (start_month now u, update_user (start_month now) (id u) users).

End Auth.

(** ** services/usage.js *)

Module Usage.
Import Auth.

(** A row of [anonymous_usage], keyed by fingerprint. *)
Record anonymous : Type := {
  ip_address : option string;
  recipes_used : Z;
  last_seen : instant
}.

(** The durable state every request shares. *)
Record store : Type := {
  spending : Spending.table;
  users : gmap Z user;
  anonymous_usage : gmap string anonymous
}.

Definition with_spending (db : Spending.table) (s : store) : store :=
  {| spending := db; users := users s; anonymous_usage := anonymous_usage s |}.
Definition with_users (us : gmap Z user) (s : store) : store :=
  {| spending := spending s; users := us; anonymous_usage := anonymous_usage s |}.
Definition with_anonymous (a : gmap string anonymous) (s : store) : store :=
  {| spending := spending s; users := users s; anonymous_usage := a |}.

(** The row found is returned as it was read; a missing row is inserted
    with a count of zero. *)
Definition getAnonymousUsage (fingerprint : string) (ip : option string) (now : instant)
    (rows : gmap string anonymous) : anonymous * gmap string anonymous :=
  match rows !! fingerprint with
  | None =>
      let row := {| ip_address := ip; recipes_used := 0; last_seen := now |} in
      (row, <[fingerprint := row]> rows)
  | Some row =>
      (row, <[fingerprint := {| ip_address := ip; recipes_used := recipes_used row;
                                last_seen := now |}]> rows)
  end.

Definition incrementAnonymousUsage (fingerprint : string) (rows : gmap string anonymous)
  : gmap string anonymous :=
  alter (fun row => {| ip_address := ip_address row;
                       recipes_used := recipes_used row + 1;
                       last_seen := last_seen row |}) fingerprint rows.

Definition incrementUserUsage (userId : Z) (us : gmap Z user) : gmap Z user :=
  update_user (fun u => with_usage (recipes_used_this_month u + 1) (month_started u)
                          (total_recipes_ever u + 1) u) userId us.

(** The object [canCleanRecipe] returns; an absent property is [None]. *)
Record verdict : Type := {
  allowed : bool;
  reason : option string;
  remaining : option Z;
  upgrade : option bool;
  requiresSignup : option bool;
  message : option string;
  isAnonymous : option bool
}.

Definition verdict_of (allowed : bool) : verdict :=
  {| allowed := allowed; reason := None; remaining := None; upgrade := None;
     requiresSignup := None; message := None; isAnonymous := None |}.

Definition initial_limit_message : string :=
  "You've used your 10 free recipes! Sign up free to get 3 more each month.".

(** [fingerprint] is the body's property: absent, or a string (the empty
    string is falsy).  The user object is returned as the call leaves it. *)
Definition canCleanRecipe (who : option user) (fingerprint : option string)
    (ip : option string) (now : instant) (s : store) : verdict * option user * store :=
  let '(paused, db) := Spending.isSystemPaused now (spending s) in
  let s := with_spending db s in
  if paused then
    ({| allowed := false; reason := Some "system_limit"; remaining := None;
        upgrade := None; requiresSignup := None; message := None;
        isAnonymous := None |}, who, s)
  else
    match who with
    | Some u =>
        let '(u, us) := resetMonthlyUsageIfNeeded now u (users s) in
        let s := with_users us s in
        if bool_decide (subscription u = Some "pro") then
          (verdict_of true, Some u, s)
        else if bool_decide (subscription u = Some "basic") then
          ({| allowed := recipes_used_this_month u <? CONFIG.BASIC_RECIPES_PER_MONTH;
              reason := None;
              remaining := Some (CONFIG.BASIC_RECIPES_PER_MONTH - recipes_used_this_month u);
              upgrade := None; requiresSignup := None; message := None;
              isAnonymous := None |}, Some u, s)
        else
          ({| allowed := recipes_used_this_month u <? CONFIG.FREE_RECIPES_PER_MONTH;
              reason := None;
              remaining := Some (CONFIG.FREE_RECIPES_PER_MONTH - recipes_used_this_month u);
              upgrade := Some (CONFIG.FREE_RECIPES_PER_MONTH <=? recipes_used_this_month u);
              requiresSignup := None; message := None; isAnonymous := None |}, Some u, s)
    | None =>
        match fingerprint with
        | Some fp =>
            if String.eqb fp "" then
              ({| allowed := false; reason := Some "no_tracking"; remaining := None;
                  upgrade := None; requiresSignup := None; message := None;
                  isAnonymous := None |}, None, s)
            else
              let '(usage, rows) := getAnonymousUsage fp ip now (anonymous_usage s) in
              let s := with_anonymous rows s in
              if recipes_used usage <? CONFIG.INITIAL_FREE_RECIPES then
                ({| allowed := true; reason := None;
                    remaining := Some (CONFIG.INITIAL_FREE_RECIPES - recipes_used usage);
                    upgrade := None; requiresSignup := None; message := None;
                    isAnonymous := Some true |}, None, s)
              else
                ({| allowed := false; reason := Some "initial_limit"; remaining := None;
                    upgrade := None; requiresSignup := Some true;
                    message := Some initial_limit_message; isAnonymous := None |}, None, s)
        | None =>
            ({| allowed := false; reason := Some "no_tracking"; remaining := None;
                upgrade := None; requiresSignup := None; message := None;
                isAnonymous := None |}, None, s)
        end
    end.

(** [Infinity] or a number. *)
Inductive quota : Type :=
| Infinity
| Finite (n : Z).

Definition getRemainingRecipes (who : option user) : quota :=
  match who with
  | None => Finite 0
  | Some u =>
      if bool_decide (subscription u = Some "pro") then Infinity
      else if bool_decide (subscription u = Some "basic")
      then Finite (Z.max 0 (CONFIG.BASIC_RECIPES_PER_MONTH - recipes_used_this_month u))
      else Finite (Z.max 0 (CONFIG.FREE_RECIPES_PER_MONTH - recipes_used_this_month u))
  end.

End Usage.

(** ** middleware/rateLimiter.js *)

Module RateLimiter.

Record window : Type := { windowStart : Z; count : Z }.

(** A key of the [requests] map: a user id (a number) or an IP address or
    ['unknown'] (strings). *)
Definition key : Type := (Z + string)%type.

Record options : Type := { windowMs : Z; max : Z }.

(** [req.user?.id || req.ip || 'unknown'] *)
Definition key_of (who : option Auth.user) (ip : option string) : key :=
  let by_ip :=
    match ip with
    | Some a => if String.eqb a "" then inr "unknown" else inr a
    | None => inr "unknown"
    end in
  match who with
  | Some u => if Auth.id u =? 0 then by_ip else inl (Auth.id u)
  | None => by_ip
  end.

(** The window the request is counted in: the stored one, or a new one
    when there is none or the stored one has expired. *)
Definition current_window (opts : options) (now : Z) (stored : option window) : window :=
  match stored with
  | Some data =>
      if windowMs opts <? now - windowStart data
      then {| windowStart := now; count := 0 |}
      else data
  | None => {| windowStart := now; count := 0 |}
  end.

(** One call of the middleware [rateLimiter(opts)] at time [now] (the value
    of [Date.now()]): [true] is [next()], [false] is the 429 response. *)
Definition rateLimiter (opts : options) (k : key) (now : Z) (requests : gmap key window)
  : bool * gmap key window :=
  let data := current_window opts now (requests !! k) in
  let data := {| windowStart := windowStart data; count := count data + 1 |} in
  (negb (max opts <? count data), <[k := data]> requests).

Definition recipeRateLimiter : options := {| windowMs := 60000; max := 10 |}.
Definition apiRateLimiter : options := {| windowMs := 60000; max := 100 |}.

(** The periodic clean-up ([setInterval], every five minutes). *)
Definition sweep (now : Z) (requests : gmap key window) : gmap key window :=
  filter (fun entry => negb (60000 <? now - windowStart (snd entry)) = true) requests.

(** What happens to the map over time: a request through one of the two
    limiters, or a clean-up. *)
Inductive event : Type :=
| Recipe (k : key) (now : Z)
| Api (k : key) (now : Z)
| Sweep (now : Z).

Definition step (e : event) (requests : gmap key window) : bool * gmap key window :=
  match e with
  | Recipe k now => rateLimiter recipeRateLimiter k now requests
  | Api k now => rateLimiter apiRateLimiter k now requests
  | Sweep now => (true, sweep now requests)
  end.

Definition time_of (e : event) : Z :=
  match e with Recipe _ now | Api _ now | Sweep now => now end.

(** Is [e] a request of identity [k] to an extraction endpoint? *)
Definition is_recipe_of (k : key) (e : event) : bool :=
  match e with
  | Recipe k' _ => bool_decide (k' = k)
  | _ => false
  end.

(** The number of requests of [k] that the strict limiter lets through while
    the events [es] happen in order, and the map they leave. *)
Fixpoint passed (k : key) (es : list event) (requests : gmap key window)
  : nat * gmap key window :=
  match es with
  | [] => (0%nat, requests)
  | e :: es' =>
      let '(ok, requests) := step e requests in
      let '(n, requests) := passed k es' requests in
      ((if is_recipe_of k e && ok then S n else n), requests)
  end.

End RateLimiter.

(** ** routes/recipes.js, with middleware/auth.js and middleware/errorHandler.js *)

Module Routes.
Import Recipes Auth Usage RateLimiter.

(** A call of [incrementUserUsage] or of [incrementAnonymousUsage]. *)
Inductive commit : Type :=
| IncrementUser (userId : Z)
| IncrementAnonymous (fingerprint : string).

(** Everything a request can change: the durable store, the limiter's map,
    and (for stating what was executed) the usage commits made so far,
    oldest first. *)
Record state : Type := {
  store : Usage.store;
  requests : gmap key window;
  committed : list commit
}.

Definition with_store (s : Usage.store) (st : state) : state :=
  {| store := s; requests := requests st; committed := committed st |}.
Definition with_requests (r : gmap key window) (st : state) : state :=
  {| store := store st; requests := r; committed := committed st |}.

(** What the handlers read of [req]: the user [authenticateToken] attached,
    the addresses, and the properties of the JSON body. *)
Record request : Type := {
  req_user : option user;
  req_ip : option string;
  forwarded_for : option string;
  body_url : jsval;
  body_fingerprint : option string;
  body_photos : jsval;
  body_recipe : jsval
}.

(** What the outside answers while one request runs.  The structured-data
    detector and converter ([extractRecipeSchema], [convertSchemaToRecipe])
    are not unfolded: their outcome on the fetched page is an input of the
    run ([None]: no structured recipe found; [Some (Throw _)]: the
    conversion threw), so what is proved of a handler holds whatever they
    compute. *)
Record outside : Type := {
  now_ms : Z;                       (* Date.now() in the rate limiter *)
  now : instant;                    (* new Date() during the quota check *)
  later : instant;                  (* new Date() when the spend is recorded *)
  page : option string;             (* fetchWebpage(url) *)
  structured : option (result obj);
  extraction : ai_reply;            (* the AI call of the initial extraction *)
  repair : ai_reply;                (* the AI call of fixRecipeIssues *)
  enhancement : ai_reply;           (* the AI call of enhanceRecipeWithDualUnits *)
  translation : ai_reply;           (* the AI call of translateRecipe *)
  transcript : result string        (* getYouTubeTranscript(videoId) *)
}.

Inductive response : Type :=
| Extracted (recipe : obj) (recipesRemaining : quota)  (* 200 {recipe, recipesRemaining} *)
| Translated (recipe : obj)                            (* 200 {recipe} *)
| Refused (error : option string) (requiresSignup upgrade : option bool)
          (message : string)                           (* 402 *)
| Failed (status : Z) (error : option string).         (* {error}; [None]: an engine's message *)

Definition status_of (r : response) : Z :=
  match r with
  | Extracted _ _ | Translated _ => 200
  | Refused _ _ _ _ => 402
  | Failed status _ => status
  end.

Definition delivers_recipe (r : response) : bool :=
  match r with Extracted _ _ | Translated _ => true | _ => false end.

(** A handler body: it may throw, and what it wrote before stays written. *)
Definition run (A : Type) : Type := state -> result A * state.

#[global] Instance run_ret : MRet run := fun _ a st => (Ok a, st).

#[global] Instance run_bind : MBind run := fun _ _ k m st =>
  match m st with
  | (Ok a, st') => k a st'
  | (Throw e, st') => (Throw e, st')
  end.

Definition lift {A : Type} (r : result A) : run A := fun st => (r, st).

(** [res.status(err.status || 500).json({ error: err.message || ... })];
    no exception of this model is named [ValidationError] or
    [UnauthorizedError]. *)
Definition errorHandler (e : exn) : response :=
  Failed (match e with
          | ApiError (Some status) => if status =? 0 then 500 else status
          | _ => 500
          end)
         (match e with
          | Error m | DbError m => Some (if String.eqb m "" then "An unexpected error occurred" else m)
          | _ => None
          end).

Definition asyncHandler (h : run response) (st : state) : response * state :=
  match h st with
  | (Ok r, st') => (r, st')
  | (Throw e, st') => (errorHandler e, st')
  end.

(** [const ip = req.ip || req.headers['x-forwarded-for']] *)
Definition ip_of (req : request) : option string :=
  match req_ip req with
  | Some a => if String.eqb a "" then forwarded_for req else Some a
  | None => forwarded_for req
  end.

(** [const user = req.user ? await resetMonthlyUsageIfNeeded(req.user) : null;
     const canClean = await canCleanRecipe(user, fingerprint, ip);] *)
Definition check_quota (w : outside) (req : request) : run (verdict * option user) :=
  fun st =>
    let s := store st in
    let '(who, s) :=
      match req_user req with
      | Some u =>
          let '(u, us) := resetMonthlyUsageIfNeeded (now w) u (users s) in
          (Some u, with_users us s)
      | None => (None, s)
      end in
    let '(canClean, who, s) := canCleanRecipe who (body_fingerprint req) (ip_of req) (now w) s in
    (Ok (canClean, who), with_store s st).

(** The 402 response of a refused request. *)
Definition refuse (canClean : verdict) : response :=
  Refused (reason canClean) (requiresSignup canClean) (upgrade canClean)
          (match message canClean with
           | Some m => if String.eqb m "" then "Upgrade for more recipes!" else m
           | None => "Upgrade for more recipes!"
           end).

(** [const { recipe: validated, issues } = validateAndFixRecipe(recipe);
     recipe = validated;
     if (issues.length) recipe = await fixRecipeIssues(recipe, issues, targetLanguage);] *)
Definition validate_and_repair {rt : Runtime} (recipe : obj) (reply : ai_reply) : result obj :=
  '(validated, issues) ← validateAndFixRecipe recipe;
  mret (fixRecipeIssues validated issues reply).

(** [await trackSpending(amount)] *)
Definition trackSpending (amount : Z) (w : outside) : run unit :=
  fun st =>
    match Spending.trackSpending amount (later w) (spending (store st)) with
    | Ok (_, db) => (Ok tt, with_store (with_spending db (store st)) st)
    | Throw e => (Throw e, st)
    end.

(** [if (user) await incrementUserUsage(user.id);
     else if (fingerprint) await incrementAnonymousUsage(fingerprint);] *)
Definition commit_usage (who : option user) (fingerprint : option string) : run unit :=
  fun st =>
    match who, fingerprint with
    | Some u, _ =>
        (Ok tt,
         {| store := with_users (incrementUserUsage (id u) (users (store st))) (store st);
            requests := requests st;
            committed := committed st ++ [IncrementUser (id u)] |})
    | None, Some fp =>
        if String.eqb fp "" then (Ok tt, st)
        else
          (Ok tt,
           {| store := with_anonymous
                         (incrementAnonymousUsage fp (anonymous_usage (store st))) (store st);
              requests := requests st;
              committed := committed st ++ [IncrementAnonymous fp] |})
    | None, None => (Ok tt, st)
    end.

(** [user ? getRemainingRecipes({ ...user, recipes_used_this_month: ... + 1 })
          : Math.max(0, (canClean.remaining || 0) - 1)] *)
Definition recipesRemaining (who : option user) (canClean : verdict) : quota :=
  match who with
  | Some u =>
      getRemainingRecipes
        (Some (with_usage (recipes_used_this_month u + 1) (month_started u)
                 (total_recipes_ever u) u))
  | None => Finite (Z.max 0 (default 0 (remaining canClean) - 1))
  end.

(** The end every extraction handler shares: commit the usage, respond. *)
Definition commit_and_respond (who : option user) (req : request) (canClean : verdict)
    (recipe : obj) : run response :=
  _ ← commit_usage who (body_fingerprint req);
  mret (Extracted recipe (recipesRemaining who canClean)).

Section Handlers.
Context {rt : Runtime}.

Definition clean_url (w : outside) (req : request) : run response :=
  '(canClean, who) ← check_quota w req;
  if negb (allowed canClean) then mret (refuse canClean)
  else
    match page w with
    | Some (String c html) =>
        recipe ←
          match structured w with
          | Some converted =>
              recipe ← lift converted;
              recipe ← lift (validate_and_repair recipe (repair w));
              let recipe := enhanceRecipeWithDualUnits recipe (enhancement w) in
              _ ← trackSpending (CONFIG.COST_PER_URL_RECIPE / 2) w;
              mret recipe
          | None =>
              response ← lift (extraction w);
              recipe ← lift (parse_or_throw "No JSON" response);
              let recipe := set_prop "sourceUrl" (body_url req) recipe in
              recipe ← lift (validate_and_repair recipe (repair w));
              _ ← trackSpending CONFIG.COST_PER_URL_RECIPE w;
              mret recipe
          end;
        commit_and_respond who req canClean recipe
    | _ => mret (Failed 400 (Some "Could not fetch recipe page."))
    end.

Definition clean_photo (w : outside) (req : request) : run response :=
  '(canClean, who) ← check_quota w req;
  if negb (allowed canClean) then mret (refuse canClean)
  else
    recipe ← lift (extractRecipeFromPhotos (body_photos req) (extraction w));
    recipe ← lift (validate_and_repair recipe (repair w));
    _ ← trackSpending CONFIG.COST_PER_PHOTO_RECIPE w;
    commit_and_respond who req canClean recipe.

(** A character of a video id: [[^&\n?#]] *)
Definition id_char (c : ascii) : bool :=
  negb (Ascii.eqb c "&" || Ascii.eqb c newline || Ascii.eqb c "?" || Ascii.eqb c "#").

Fixpoint id_run (s : string) : string :=
  match s with
  | String c s' => if id_char c then String c (id_run s') else EmptyString
  | EmptyString => EmptyString
  end.

Fixpoint drop_chars (n : nat) (s : string) : string :=
  match n, s with
  | S n', String _ s' => drop_chars n' s'
  | _, _ => s
  end.

Definition video_prefixes : list string :=
  ["youtube.com/watch?v="; "youtu.be/"; "youtube.com/embed/"; "youtube.com/shorts/"].

(** The id captured when the pattern matches at the start of [s]. *)
Definition id_here (s : string) : option string :=
  let try_prefix p :=
    if String.prefix p s
    then match id_run (drop_chars (String.length p) s) with
         | EmptyString => None
         | run => Some run
         end
    else None in
  foldr (fun p found => match try_prefix p with Some run => Some run | None => found end)
        None video_prefixes.

(** [url.match(/(?:youtube\.com\/watch\?v=|youtu\.be\/|youtube\.com\/embed\/
    |youtube\.com\/shorts\/)([^&\n?#]+)/)]: the capture of the leftmost match. *)
Fixpoint videoIdMatch (s : string) : option string :=
  match id_here s with
  | Some videoId => Some videoId
  | None =>
      match s with
      | String _ s' => videoIdMatch s'
      | EmptyString => None
      end
  end.

Definition clean_youtube (w : outside) (req : request) : run response :=
  '(canClean, who) ← check_quota w req;
  if negb (allowed canClean) then mret (refuse canClean)
  else
    match body_url req with
    | VStr url =>
        match videoIdMatch url with
        | None => mret (Failed 400 (Some "Invalid YouTube URL."))
        | Some videoId =>
            transcript ← lift (transcript w);
            if (String.length transcript <? 50)%nat
            then mret (Failed 400
                   (Some "Could not extract transcript. Video may not have captions."))
            else
              recipe ← lift (extractRecipeFromYouTube (extraction w));
              let recipe := set_prop "sourceUrl" (body_url req) recipe in
              recipe ← lift (validate_and_repair recipe (repair w));
              _ ← trackSpending (CONFIG.COST_PER_URL_RECIPE * 3 / 2) w;
              commit_and_respond who req canClean recipe
        end
    | _ => lift (Throw TypeError)
    end.

(** [requirePaidSubscription] and the handler of [POST /translate] *)
Definition translate (w : outside) (req : request) : run response :=
  match req_user req with
  | Some u =>
      if bool_decide (subscription u = Some "basic") || bool_decide (subscription u = Some "pro")
      then
        translatedRecipe ← lift (translateRecipe (body_recipe req) (translation w));
        _ ← trackSpending 100 w;
        mret (Translated translatedRecipe)
      else mret (Refused (Some "upgrade_required") None None "Upgrade to access this feature")
  | None => mret (Refused (Some "upgrade_required") None None "Upgrade to access this feature")
  end.

(** [router.post(path, recipeRateLimiter, asyncHandler(handler))] *)
Definition limited (h : outside -> request -> run response) (w : outside) (req : request)
    (st : state) : response * state :=
  let '(ok, rq) :=
    rateLimiter recipeRateLimiter (key_of (req_user req) (req_ip req)) (now_ms w)
      (requests st) in
  let st := with_requests rq st in
  if ok then asyncHandler (h w req) st
  else (Failed 429 (Some "Too many requests. Please try again later."), st).

Definition post_clean_url : outside -> request -> state -> response * state :=
  limited clean_url.
Definition post_clean_photo : outside -> request -> state -> response * state :=
  limited clean_photo.
Definition post_clean_youtube : outside -> request -> state -> response * state :=
  limited clean_youtube.
Definition post_translate (w : outside) (req : request) : state -> response * state :=
  asyncHandler (translate w req).

End Handlers.

End Routes.

(** ** Vocabulary of the statements *)

Module Observe.
Import Recipes.

(** The step list and the ingredient list that [validateAndFixRecipe] works
    on: the arrays of the recipe it is given (anything else counts as the
    empty array). *)
Definition raw_steps (recipe : obj) : list jsval :=
  elements (lookup_prop "steps" recipe).

Definition raw_ingredients (recipe : obj) : list jsval :=
  elements (lookup_prop "ingredients" recipe).

(** The instruction of a step, when the step is a string or an object whose
    [instruction] is a string. *)
Definition instruction_text (s : jsval) : option string :=
  match s with
  | VStr i => Some i
  | VObj o => match lookup_prop "instruction" o with VStr i => Some i | _ => None end
  | _ => None
  end.

(** Has an accumulator of the row reached its ceiling? *)
Definition limit_reached (row : Spending.tracker) : bool :=
  (CONFIG.DAILY_SPENDING_LIMIT <=? Spending.daily_amount row)
  || (CONFIG.MONTHLY_SPENDING_LIMIT <=? Spending.monthly_amount row).

(** The table holds the row, its flag is [p], and the flag says whether an
    accumulator of the row has reached its ceiling. *)
Definition flag_is (p : bool) (db : Spending.table) : Prop :=
  exists row, db = Some row /\ Spending.paused row = p /\ p = limit_reached row.

(** The two accumulators of the table. *)
Definition daily_of (db : Spending.table) : Z :=
  from_option Spending.daily_amount 0 db.
Definition monthly_of (db : Spending.table) : Z :=
  from_option Spending.monthly_amount 0 db.

(** Does the reply hold a parseable JSON object: does the pattern match,
    and does [JSON.parse] accept the match? *)
Definition has_json {rt : Runtime} (response : ai_message) : bool :=
  match find_json response with
  | Some m => bool_decide (is_Some (JSON_parse m))
  | None => false
  end.


(** The three extraction endpoints. *)
Definition extraction_endpoints {rt : Runtime}
  : list (Routes.outside -> Routes.request -> Routes.state -> Routes.response * Routes.state) :=
  [Routes.post_clean_url; Routes.post_clean_photo; Routes.post_clean_youtube].





End Observe.

(** ** Sample data *)

Module Sample.
Import Recipes.

Definition translated_tarte : obj :=
  [("title", VStr "Tarte aux pommes"); ("servings", VNum 8);
   ("source", VStr "Livre"); ("imageUrl", VNull)].

Definition six_ingredient_recipe : obj :=
  [("title", VStr "Stew");
   ("ingredients", VArr [VStr "1 onion"; VStr "2 carrots"; VStr "3 potatoes";
                         VStr "500g / 1.1 lb beef"; VStr "1 l / 4 cups stock";
                         VStr "1 tsp salt"]);
   ("steps", VArr [VStr "Put everything in a pot and simmer for two hours."])].

(** Six ingredients and three steps, each too short to survive. *)
Definition terse_recipe : obj :=
  [("title", VStr "Stew");
   ("ingredients", VArr [VStr "1 onion"; VStr "2 carrots"; VStr "3 potatoes";
                         VStr "500g / 1.1 lb beef"; VStr "1 l / 4 cups stock";
                         VStr "1 tsp salt"]);
   ("steps", VArr [VStr "Chop."; VObj [("instruction", VStr "  Simmer.  ")]; VStr "Serve."])].

Fixpoint repeat_char (c : ascii) (n : nat) : string :=
  match n with
  | O => EmptyString
  | S n' => String c (repeat_char c n')
  end.

(** One step of 401 characters. *)
Definition long_step_recipe : obj :=
  [("title", VStr "Stew"); ("steps", VArr [VObj [("instruction", VStr (repeat_char "a" 401))]])].

(** JSON texts are written with [q] for the quotation marks. *)
Definition quotation_mark : string := String (ascii_of_nat 34) EmptyString.
Definition q (s : string) : string := quotation_mark +:+ s +:+ quotation_mark.

(** [{"title":"Tarte aux pommes","servings":8,"source":"Livre","imageUrl":null}] *)
Definition tarte_json : string :=
  "{" +:+ q "title" +:+ ":" +:+ q "Tarte aux pommes" +:+ ","
      +:+ q "servings" +:+ ":8,"
      +:+ q "source" +:+ ":" +:+ q "Livre" +:+ ","
      +:+ q "imageUrl" +:+ ":null}".

(** [{"title":"Stew","ingredients":["1 onion",...],"steps":["Put ..."]}] *)
Definition stew_json : string :=
  "{" +:+ q "title" +:+ ":" +:+ q "Stew" +:+ ","
      +:+ q "ingredients" +:+ ":["
      +:+ q "1 onion" +:+ "," +:+ q "2 carrots" +:+ "," +:+ q "3 potatoes" +:+ ","
      +:+ q "500g / 1.1 lb beef" +:+ "," +:+ q "1 l / 4 cups stock" +:+ ","
      +:+ q "1 tsp salt" +:+ "],"
      +:+ q "steps" +:+ ":[" +:+ q "Put everything in a pot and simmer for two hours."
      +:+ "]}".

Definition known_json : list (string * obj) :=
  [(tarte_json, translated_tarte); (stew_json, six_ingredient_recipe)].

Definition known_parse (text : string) : option obj :=
  snd <$> List.find (fun entry => String.eqb (fst entry) text) known_json.

(** A runtime for evaluating the code on sample replies: [JSON_parse] knows
    the texts of [known_json], and no sample of this file reaches
    [ToNumber]. *)
#[local] Instance runtime : Runtime :=
  {| JSON_parse := known_parse; ToNumber := fun _ => nan |}.

(** A reply of the AI that is one text block. *)
Definition reply_text (text : string) : ai_message := {| content := Some [Some text] |}.
Definition says (text : string) : ai_reply := Ok (reply_text text).

(** A finished recipe, and the reply of a translation that changed the
    servings. *)
Definition tarte : obj :=
  [("title", VStr "Apple tart"); ("servings", VNum 4);
   ("imageUrl", VStr "https://example.com/tart.jpg");
   ("source", VStr "Cookbook"); ("sourceUrl", VNull)].

Definition subscriber : Auth.user :=
  {| Auth.id := 7; Auth.subscription := Some "pro"; Auth.recipes_used_this_month := 0;
     Auth.month_started := Some "2026-03"; Auth.total_recipes_ever := 12 |}.

(** The ledger as the last request of March 1st left it: 5 dollars spent
    that day and that month. *)
Definition ledger_march_1st : Spending.table :=
  Some {| Spending.daily_date := "2026-03-01"; Spending.daily_amount := 50000;
          Spending.monthly_month := "2026-03"; Spending.monthly_amount := 50000;
          Spending.paused := false |}.

Definition just_after_midnight : instant := "2026-03-02T00:00:05.000Z".

(** The ledger with the daily ceiling of 10 dollars reached on March 2nd. *)
Definition ledger_daily_limit : Spending.table :=
  Some {| Spending.daily_date := "2026-03-02"; Spending.daily_amount := 100000;
          Spending.monthly_month := "2026-03"; Spending.monthly_amount := 250000;
          Spending.paused := true |}.

Definition basic_user_at_ceiling : Auth.user :=
  {| Auth.id := 8; Auth.subscription := Some "basic"; Auth.recipes_used_this_month := 20;
     Auth.month_started := Some "2026-03"; Auth.total_recipes_ever := 57 |}.

(** A store whose ledger has tripped. *)
Definition paused_store : Usage.store :=
  {| Usage.spending := ledger_daily_limit; Usage.users := {[ 7 := subscriber ]};
     Usage.anonymous_usage := ∅ |}.

(** A store with a quiet ledger and one fingerprint that has used 9 recipes. *)
Definition quiet_ledger : Spending.table :=
  Some {| Spending.daily_date := "2026-03-02"; Spending.daily_amount := 1200;
          Spending.monthly_month := "2026-03"; Spending.monthly_amount := 50000;
          Spending.paused := false |}.

Definition nine_used : Usage.anonymous :=
  {| Usage.ip_address := Some "203.0.113.7"; Usage.recipes_used := 9;
     Usage.last_seen := "2026-03-01T18:00:00.000Z" |}.

Definition ninth_recipe_store : Usage.store :=
  {| Usage.spending := quiet_ledger;
     Usage.users := {[ 7 := subscriber; 8 := basic_user_at_ceiling ]};
     Usage.anonymous_usage := {[ "fp-1" := nine_used ]} |}.

Definition apology : string := "I'm sorry, I can't help with that.".

Definition march_2nd : instant := "2026-03-02T09:30:00.000Z".

Definition empty_store : Usage.store :=
  {| Usage.spending := None; Usage.users := ∅; Usage.anonymous_usage := ∅ |}.

Definition empty_state : Routes.state :=
  {| Routes.store := empty_store; Routes.requests := ∅; Routes.committed := [] |}.

(** An anonymous visitor with a fingerprint, sending photos. *)
Definition visitor : Routes.request :=
  {| Routes.req_user := None; Routes.req_ip := Some "203.0.113.7";
     Routes.forwarded_for := None;
     Routes.body_url := VStr "https://example.com/stew";
     Routes.body_fingerprint := Some "fp-1";
     Routes.body_photos := VArr [VStr "data:image/png;base64,AAAA"];
     Routes.body_recipe := VUndefined |}.

(** A subscriber asking for the translation of [tarte]. *)
Definition translation_request : Routes.request :=
  {| Routes.req_user := Some subscriber; Routes.req_ip := Some "203.0.113.7";
     Routes.forwarded_for := None;
     Routes.body_url := VUndefined;
     Routes.body_fingerprint := None;
     Routes.body_photos := VUndefined;
     Routes.body_recipe := VObj tarte |}.

Definition translating : Routes.outside :=
  {| Routes.now_ms := 1772443800000; Routes.now := march_2nd; Routes.later := march_2nd;
     Routes.page := None;
     Routes.structured := None;
     Routes.extraction := says apology;
     Routes.repair := says apology;
     Routes.enhancement := says apology;
     Routes.translation := says tarte_json;
     Routes.transcript := Throw FetchError |}.

(** The same translation as the first request of March 2nd, on the state
    March 1st left. *)
Definition translating_after_midnight : Routes.outside :=
  {| Routes.now_ms := 1772409605000; Routes.now := just_after_midnight;
     Routes.later := just_after_midnight;
     Routes.page := None;
     Routes.structured := None;
     Routes.extraction := says apology;
     Routes.repair := says apology;
     Routes.enhancement := says apology;
     Routes.translation := says tarte_json;
     Routes.transcript := Throw FetchError |}.

Definition state_march_1st : Routes.state :=
  {| Routes.store := {| Usage.spending := ledger_march_1st;
                        Usage.users := {[ 7 := subscriber ]};
                        Usage.anonymous_usage := ∅ |};
     Routes.requests := ∅; Routes.committed := [] |}.

(** The extraction answers with the stew; the repair and the enhancement
    answer with an apology, which holds no JSON. *)
Definition apologetic : Routes.outside :=
  {| Routes.now_ms := 1772443800000; Routes.now := march_2nd; Routes.later := march_2nd;
     Routes.page := Some "<html><body>Stew</body></html>";
     Routes.structured := Some (Ok six_ingredient_recipe);
     Routes.extraction := says stew_json;
     Routes.repair := says apology;
     Routes.enhancement := says apology;
     Routes.translation := says apology;
     Routes.transcript := Throw FetchError |}.





End Sample.

(** ** Further vocabulary *)

Module Ledger.
Import Spending.

(** The ledger's row is in order: the month stored is the month of the day
    stored, and the day's spend is between zero and the month's. *)
Definition in_order (db : table) : Prop :=
  exists row,
    db = Some row
    /\ monthly_month row = String.substring 0 7 (daily_date row)
    /\ 0 <= daily_amount row <= monthly_amount row.

End Ledger.

Module Quota.
Import Auth Usage Routes.

(** What a run of an extraction handler [h] comes to, next to what the
    quota check at its head returned: a delivered recipe means the check
    allowed the caller, the response carries [recipesRemaining] as computed
    from the check, and the state is the one after the check with some
    ledger [db] and the usage commit of [commit_usage]; anything else means
    the state after the check, untouched. *)
Definition settles (w : outside) (req : request) (h : run response) : Prop :=
  forall st canClean who st1,
    check_quota w req st = (Ok (canClean, who), st1) ->
    match h st with
    | (Ok (Extracted _ remains), st') =>
        allowed canClean = true
        /\ remains = recipesRemaining who canClean
        /\ exists db,
             st' = (commit_usage who (body_fingerprint req)
                      (with_store (with_spending db (store st1)) st1)).2
    | (Ok (Translated _), _) => False
    | (_, st') => st' = st1
    end.

End Quota.

Module Sample2.

(** A free signed-up user who has used 2 of 3 recipes this month, as the
    session holds it and as the users table holds it. *)
Definition free_user : Auth.user :=
  {| Auth.id := 9; Auth.subscription := None; Auth.recipes_used_this_month := 2;
     Auth.month_started := Some "2026-03"; Auth.total_recipes_ever := 14 |}.

Definition free_user_state : Routes.state :=
  {| Routes.store := {| Usage.spending := Sample.quiet_ledger;
                        Usage.users := {[ 9 := free_user ]};
                        Usage.anonymous_usage := {[ "fp-1" := Sample.nine_used ]} |};
     Routes.requests := ∅; Routes.committed := [] |}.

(** The free user sending photos. *)
Definition free_user_request : Routes.request :=
  {| Routes.req_user := Some free_user; Routes.req_ip := Some "203.0.113.9";
     Routes.forwarded_for := None;
     Routes.body_url := VUndefined;
     Routes.body_fingerprint := None;
     Routes.body_photos := VArr [VStr "data:image/png;base64,AAAA"];
     Routes.body_recipe := VUndefined |}.

End Sample2.

(** ** index.js: the order of the middleware *)

Module App.
Import RateLimiter.

(** [app.use(apiRateLimiter)] comes before the routers, and the recipe
    router's [authenticateToken] before its [recipeRateLimiter]: the general
    limiter sees no [req.user] and keys the request by address, the strict
    limiter keys it by user id when there is a user.  Both count in the
    same map.  The two readings of [Date.now()] of one request are taken as
    one instant.  [true]: the request reaches the handler. *)
Definition limiters (who : option Auth.user) (ip : option string) (now : Z)
    (requests : gmap key window) : bool * gmap key window :=
  let '(ok, requests) := rateLimiter apiRateLimiter (key_of None ip) now requests in
  if ok then rateLimiter recipeRateLimiter (key_of who ip) now requests
  else (false, requests).

(** How many of the extraction requests that one caller sends at the
    [times] given reach their handler. *)
Fixpoint served (who : option Auth.user) (ip : option string) (times : list Z)
    (requests : gmap key window) : nat :=
  match times with
  | [] => 0%nat
  | now :: times' =>
      let '(ok, requests) := limiters who ip now requests in
      ((if ok then 1 else 0) + served who ip times' requests)%nat
  end.

(** A full extraction endpoint as the application mounts it. *)
Definition mounted (route : Routes.outside -> Routes.request -> Routes.state
                            -> Routes.response * Routes.state)
    (w : Routes.outside) (req : Routes.request) (st : Routes.state)
  : Routes.response * Routes.state :=
  let '(ok, rq) :=
    rateLimiter apiRateLimiter (key_of None (Routes.req_ip req)) (Routes.now_ms w)
      (Routes.requests st) in
  let st := Routes.with_requests rq st in
  if ok then route w req st
  else (Routes.Failed 429 (Some "Too many requests. Please try again later."), st).

End App.

(** ** Strings *)

Module Text.

(** Does the character occur in the string? *)
Fixpoint occurs (c : ascii) (s : string) : bool :=
  match s with
  | EmptyString => false
  | String c' s' => Ascii.eqb c c' || occurs c s'
  end.

(** Is every character of the string one that [keep] accepts? *)
Fixpoint all_chars (keep : ascii -> bool) (s : string) : bool :=
  match s with
  | EmptyString => true
  | String c s' => keep c && all_chars keep s'
  end.

Definition line_feed : string := String JS.newline EmptyString.

End Text.

Module Shape.
Import Recipes.

(** A step as the validator leaves it: an object whose [instruction] is a
    text of more than ten characters once trimmed and whose [ingredients]
    is truthy. *)
Definition step_in_shape (s : jsval) : bool :=
  match s with
  | VObj o =>
      match lookup_prop "instruction" o with
      | VStr i => (10 <? String.length (trim i))%nat
      | _ => false
      end
      && truthy (lookup_prop "ingredients" o)
  | _ => false
  end.

(** A recipe as the validator leaves it: a truthy [title] and [servings],
    an array of [ingredients], and an array of [steps] in shape. *)
Definition in_shape (recipe : obj) : bool :=
  truthy (lookup_prop "title" recipe)
  && truthy (lookup_prop "servings" recipe)
  && isArray (lookup_prop "ingredients" recipe)
  && match lookup_prop "steps" recipe with
     | VArr steps => forallb step_in_shape steps
     | _ => false
     end.

End Shape.

(** * Properties *)

(** Membership in a list written out. *)
Ltac list_mem :=
  rewrite ?elem_of_app, ?elem_of_cons, ?elem_of_nil; intuition congruence.

(** ** Objects *)

Section Objects.

Lemma lookup_set_prop_eq (k : string) (v : jsval) (o : obj) :
  lookup_prop k (set_prop k v o) = v.
Proof.
  induction o as [|[k' v'] o IH]; simpl.
  - by rewrite String.eqb_refl.
  - destruct (String.eqb k k') eqn:E; simpl; rewrite E; [done | apply IH].
Qed.

Lemma lookup_set_prop_ne (k k' : string) (v : jsval) (o : obj) :
  k ≠ k' -> lookup_prop k (set_prop k' v o) = lookup_prop k o.
Proof.
  intros Hne. induction o as [|[k'' v''] o IH]; simpl.
  - destruct (String.eqb_spec k k'); [done | reflexivity].
  - destruct (String.eqb_spec k' k'') as [->|]; simpl.
    + destruct (String.eqb_spec k k''); [done | reflexivity].
    + destruct (String.eqb k k''); [reflexivity | apply IH].
Qed.

Lemma lookup_set_default_ne (k k' : string) (bad : jsval -> bool) (d : jsval) (o : obj) :
  k ≠ k' -> lookup_prop k (Recipes.set_default k' bad d o) = lookup_prop k o.
Proof.
  intros Hne. unfold Recipes.set_default.
  destruct (bad _); [by apply lookup_set_prop_ne | reflexivity].
Qed.

Lemma elements_set_default_array (k : string) (o : obj) :
  Recipes.elements (lookup_prop k (Recipes.set_default k Recipes.not_array (VArr []) o))
  = Recipes.elements (lookup_prop k o).
Proof.
  unfold Recipes.set_default.
  destruct (Recipes.not_array (lookup_prop k o)) eqn:E; [|reflexivity].
  rewrite lookup_set_prop_eq.
  by destruct (lookup_prop k o).
Qed.

End Objects.

(** ** The validator decides on the raw step list *)

Section Validation.
Context {rt : Runtime}.
Import Recipes Observe.

(** The stages of [validateAndFixRecipe], read off a successful run. *)
Lemma validateAndFixRecipe_stages (recipe validated : obj) (issues : list string) :
  validateAndFixRecipe recipe = Ok (validated, issues) ->
  exists (long : bool) (coerced kept : list jsval),
    some_too_long (raw_steps recipe) = Ok long
    /\ mapM coerce_step (raw_steps recipe) = Ok coerced
    /\ filter_steps coerced = Ok kept
    /\ lookup_prop "steps" validated = VArr kept
    /\ issues = (if long then ["steps_too_long"] else [])
                ++ (if (5 <? length (raw_ingredients recipe))%nat
                       && (length (raw_steps recipe) <? 3)%nat
                    then ["too_few_steps"] else []).
Proof.
  unfold validateAndFixRecipe, raw_steps, raw_ingredients.
  rewrite elements_set_default_array.
  rewrite lookup_set_default_ne by done.
  rewrite elements_set_default_array.
  rewrite !lookup_set_default_ne by done.
  set (steps := elements (lookup_prop "steps" recipe)).
  set (ingredients := elements (lookup_prop "ingredients" recipe)).
  destruct (some_too_long steps) as [long|] eqn:Hlong; [|discriminate].
  simpl.
  destruct (mapM coerce_step steps) as [coerced|] eqn:Hmap; [|discriminate].
  simpl.
  destruct (filter_steps coerced) as [kept|] eqn:Hkept; [|discriminate].
  simpl. intros [= <- <-].
  exists long, coerced, kept. repeat split; try done.
  - apply lookup_set_prop_eq.
  - destruct long, ((5 <? length ingredients)%nat && (length steps <? 3)%nat); reflexivity.
Qed.

Lemma some_too_long_true (steps : list jsval) :
  some_too_long steps = Ok true <-> 
  exists before s after, steps = before ++ s :: after
    /\ Forall (fun s' => step_too_long s' = Ok false) before
    /\ step_too_long s = Ok true.
Proof.
  induction steps as [|s steps IH]; simpl.
  - split; [discriminate|]. intros (before & s & after & E & _). by destruct before.
  - destruct (step_too_long s) as [[|]|] eqn:Hs; simpl.
    + split; [|done]. intros _. exists [], s, steps. by repeat split.
    + rewrite IH. split.
      * intros (before & s' & after & -> & Hb & Hs').
        exists (s :: before), s', after. repeat split; [|done]. by constructor.
      * intros (before & s' & after & E & Hb & Hs').
        destruct before as [|b before]; simplify_eq/=; [congruence|].
        inversion Hb; subst. by exists before, s', after.
    + split; [discriminate|].
      intros (before & s' & after & E & Hb & Hs').
      destruct before as [|b before]; simplify_eq/=; [congruence|].
      inversion Hb; congruence.
Qed.

Lemma some_too_long_false (steps : list jsval) :
  some_too_long steps = Ok false <-> Forall (fun s => step_too_long s = Ok false) steps.
Proof.
  induction steps as [|s steps IH]; simpl.
  - split; [constructor | done].
  - destruct (step_too_long s) as [[|]|] eqn:Hs; simpl.
    + split; [discriminate|]. inversion 1; congruence.
    + rewrite IH. split; [by constructor | by inversion 1].
    + split; [discriminate|]. inversion 1; congruence.
Qed.

(** A step whose instruction is text is too long exactly when the text has
    more than 400 characters. *)
Lemma step_too_long_text (s : jsval) (i : string) :
  instruction_text s = Some i ->
  step_too_long s = Ok (400 <? String.length i)%nat.
Proof.
  destruct s as [| | | |i'|l|o]; try discriminate; simpl.
  - by intros [= ->].
  - unfold step_too_long; simpl.
    destruct (lookup_prop "instruction" o); try discriminate.
    by intros [= ->].
Qed.

Lemma filter_steps_length (steps kept : list jsval) :
  filter_steps steps = Ok kept -> (length kept <= length steps)%nat.
Proof.
  revert kept. induction steps as [|s steps IH]; simpl; intros kept.
  - by intros [= <-].
  - destruct (keeps_step s) as [b|]; [|discriminate]. simpl.
    destruct (filter_steps steps) as [kept'|]; [|discriminate]. simpl.
    intros [= <-]. specialize (IH _ eq_refl). destruct b; simpl; lia.
Qed.

End Validation.

Section ValidationClaim.
Import Recipes Observe.

(** C10.  [validateAndFixRecipe] decides [steps_too_long] and
    [too_few_steps] on the step list as given, before string steps become
    objects and before short steps are dropped: on every successful run,
    [too_few_steps] is raised exactly when the given recipe has more than 5
    ingredients and fewer than 3 steps, and [steps_too_long] exactly when
    the scan of the given steps finds one too long; a step whose
    instruction has more than 400 characters (401, say) raises
    [steps_too_long], and steps whose instructions have at most 400
    characters (exactly 400, say) never do; the surviving steps are at most
    as many as the given ones.  And there is a recipe with more than 5
    ingredients that comes back with fewer than 3 steps and no issue. *)
Theorem validateAndFixRecipe_tags_on_raw_steps
    (rt : Runtime) (recipe validated : obj) (issues : list string)
    (Hrun : validateAndFixRecipe recipe = Ok (validated, issues)) :
  ("too_few_steps" ∈ issues <->
     (5 < length (raw_ingredients recipe))%nat /\ (length (raw_steps recipe) < 3)%nat)
  /\ ("steps_too_long" ∈ issues <-> some_too_long (raw_steps recipe) = Ok true)
  /\ (forall s i, s ∈ raw_steps recipe -> instruction_text s = Some i ->
        (400 < String.length i)%nat -> "steps_too_long" ∈ issues)
  /\ ((forall s, s ∈ raw_steps recipe ->
         exists i, instruction_text s = Some i /\ (String.length i <= 400)%nat) ->
      "steps_too_long" ∉ issues)
  /\ (length (raw_steps validated) <= length (raw_steps recipe))%nat
  /\ (exists recipe' validated',
        (5 < length (raw_ingredients recipe'))%nat
        /\ validateAndFixRecipe recipe' = Ok (validated', [])
        /\ (length (raw_steps validated') < 3)%nat).
Proof.
  destruct (validateAndFixRecipe_stages _ _ _ Hrun)
    as (long & coerced & kept & Hlong & Hmap & Hkept & Hsteps & ->).
  assert (Htag : "steps_too_long" ∈
            (if long then ["steps_too_long"] else [])
            ++ (if (5 <? length (raw_ingredients recipe))%nat
                   && (length (raw_steps recipe) <? 3)%nat
                then ["too_few_steps"] else []) <-> long = true).
  { destruct long, (_ && _); list_mem. }
  split; [|split; [|split; [|split; [|split]]]].
  - rewrite elem_of_app.
    destruct ((5 <? _)%nat && (_ <? 3)%nat) eqn:E.
    + apply andb_true_iff in E as [?%Nat.ltb_lt ?%Nat.ltb_lt].
      split; [done|]. intros _. right. apply list_elem_of_here.
    + apply andb_false_iff in E.
      split.
      * destruct long; list_mem.
      * intros [?%Nat.ltb_lt ?%Nat.ltb_lt]. destruct E; congruence.
  - rewrite Htag, Hlong. split; congruence.
  - intros s i Hin Htext Hlen. apply Htag.
    destruct long; [done|].
    apply some_too_long_false in Hlong.
    rewrite Forall_forall in Hlong. specialize (Hlong s Hin).
    rewrite (step_too_long_text _ _ Htext) in Hlong.
    apply Nat.ltb_lt in Hlen. congruence.
  - intros Hall Hin. apply Htag in Hin as ->.
    apply some_too_long_true in Hlong as (before & s & after & E & _ & Hs).
    destruct (Hall s) as (i & Htext & Hlen);
      [rewrite E, elem_of_app, elem_of_cons; auto|].
    rewrite (step_too_long_text _ _ Htext) in Hs.
    apply Nat.ltb_ge in Hlen. congruence.
  - unfold raw_steps at 1. rewrite Hsteps. simpl.
    apply filter_steps_length in Hkept.
    apply (f_equal (fun r => match r with Ok l => length l | Throw _ => 0%nat end)) in Hmap as Hlen.
    assert (length coerced = length (raw_steps recipe)) as <-; [|done].
    clear -Hmap. revert coerced Hmap.
    induction (raw_steps recipe) as [|s steps IH]; simpl; intros coerced.
    + by intros [= <-].
    + destruct (coerce_step s); [|discriminate]. simpl.
      destruct (mapM coerce_step steps); [|discriminate]. simpl.
      intros [= <-]. simpl. by rewrite (IH _ eq_refl).
  - exists Sample.terse_recipe. eexists. split; [|split].
    + vm_compute. lia.
    + reflexivity.
    + vm_compute. lia.
Qed.

(** On the recipe with one step of 401 characters. *)
Lemma validateAndFixRecipe_tags_on_raw_steps_witness :
  exists validated,
    validateAndFixRecipe (rt := Sample.runtime) Sample.long_step_recipe
      = Ok (validated, ["steps_too_long"])
    /\ "steps_too_long" ∈ ["steps_too_long"].
Proof.
  eexists.
  assert (Hrun : validateAndFixRecipe (rt := Sample.runtime) Sample.long_step_recipe
                 = Ok (_, ["steps_too_long"])) by (vm_compute; reflexivity).
  split; [exact Hrun|].
  destruct (validateAndFixRecipe_tags_on_raw_steps Sample.runtime _ _ _ Hrun)
    as (_ & _ & Hlong & _).
  apply (Hlong (VObj [("instruction", VStr (Sample.repeat_char "a" 401))])
               (Sample.repeat_char "a" 401)).
  - vm_compute. apply list_elem_of_here.
  - reflexivity.
  - vm_compute. lia.
Defined.

End ValidationClaim.

(** ** Replies without JSON: which stages fail *)

(** Unfolds the binds of a handler body. *)
Ltac run_unfold :=
  unfold mbind, Routes.run_bind, mret, Routes.run_ret, Routes.lift,
    Routes.commit_and_respond; simpl.

Ltac run_unfold_in H :=
  unfold mbind, Routes.run_bind, mret, Routes.run_ret, Routes.lift,
    Routes.commit_and_respond in H; simpl in H.

Section NoJson.
Context {rt : Runtime}.
Import Recipes Observe Usage Routes.

Lemma parse_or_throw_no_json (msg : string) (response : ai_message) :
  has_json response = false -> is_ok (parse_or_throw msg response) = false.
Proof.
  unfold has_json, parse_or_throw, parse.
  destruct (find_json response) as [m|]; [|done].
  destruct (JSON_parse m); [|done].
  intros Hno. apply bool_decide_eq_false in Hno. destruct Hno. by eexists.
Qed.

Lemma fixRecipeIssues_no_json (recipe : obj) (issues : list string) (response : ai_message) :
  has_json response = false -> fixRecipeIssues recipe issues (Ok response) = recipe.
Proof.
  unfold has_json, fixRecipeIssues, parse. destruct issues; [done|]. simpl.
  destruct (find_json response) as [m|]; [|done].
  destruct (JSON_parse m); [|done].
  intros Hno. apply bool_decide_eq_false in Hno. destruct Hno. by eexists.
Qed.

Lemma enhanceRecipeWithDualUnits_no_json (recipe : obj) (response : ai_message) :
  has_json response = false -> enhanceRecipeWithDualUnits recipe (Ok response) = recipe.
Proof.
  unfold has_json, enhanceRecipeWithDualUnits, parse. simpl.
  destruct (find_json response) as [m|]; [|done].
  destruct (JSON_parse m); [|done].
  intros Hno. apply bool_decide_eq_false in Hno. destruct Hno. by eexists.
Qed.

(** An endpoint whose handler delivers no recipe delivers none. *)
Lemma limited_fails (h : outside -> request -> run response) (w : outside)
    (req : request) (st : state) :
  (forall st0, match h w req st0 with
               | (Ok r, _) => delivers_recipe r = false
               | (Throw _, _) => True
               end) ->
  delivers_recipe (limited h w req st).1 = false.
Proof.
  intros Hh. unfold limited.
  destruct (RateLimiter.rateLimiter _ _ _ _) as [ok rq]. destruct ok; [|done].
  unfold asyncHandler. specialize (Hh (with_requests rq st)).
  by destruct (h w req (with_requests rq st)) as [[r|e] st1].
Qed.

Lemma check_quota_ok (w : outside) (req : request) (st : state) :
  exists canClean who, (check_quota w req st).1 = Ok (canClean, who).
Proof.
  unfold check_quota.
  destruct (req_user req) as [u|].
  - destruct (Auth.resetMonthlyUsageIfNeeded _ _ _) as [u' us].
    destruct (Usage.canCleanRecipe _ _ _ _ _) as [[canClean who] s]. by eexists _, _.
  - destruct (Usage.canCleanRecipe _ _ _ _ _) as [[canClean who] s]. by eexists _, _.
Qed.

Lemma clean_photo_no_json (w : outside) (req : request) (response : ai_message) :
  extraction w = Ok response -> has_json response = false ->
  forall st, match clean_photo w req st with
             | (Ok r, _) => delivers_recipe r = false
             | (Throw _, _) => True
             end.
Proof.
  intros Hreply Hno st. unfold clean_photo. run_unfold.
  destruct (check_quota w req st) as [[[canClean who]|e] st1]; [|done].
  destruct (allowed canClean); simpl; [|done].
  unfold extractRecipeFromPhotos. rewrite Hreply.
  destruct (photosToProcess (body_photos req)); simpl; [|done].
  pose proof (parse_or_throw_no_json "No JSON found in response" response Hno).
  by destruct (parse_or_throw _ _).
Qed.

Lemma clean_youtube_no_json (w : outside) (req : request) (response : ai_message) :
  extraction w = Ok response -> has_json response = false ->
  forall st, match clean_youtube w req st with
             | (Ok r, _) => delivers_recipe r = false
             | (Throw _, _) => True
             end.
Proof.
  intros Hreply Hno st. unfold clean_youtube. run_unfold.
  destruct (check_quota w req st) as [[[canClean who]|e] st1]; [|done].
  destruct (allowed canClean); simpl; [|done].
  destruct (body_url req); try done.
  destruct (videoIdMatch s); [|done].
  destruct (transcript w) as [t|]; [|done]. simpl.
  destruct (String.length t <? 50)%nat; [done|].
  unfold extractRecipeFromYouTube. rewrite Hreply. simpl.
  pose proof (parse_or_throw_no_json "No JSON found in response" response Hno).
  by destruct (parse_or_throw _ _).
Qed.

Lemma clean_url_no_json (w : outside) (req : request) (response : ai_message) :
  structured w = None ->
  extraction w = Ok response -> has_json response = false ->
  forall st, match clean_url w req st with
             | (Ok r, _) => delivers_recipe r = false
             | (Throw _, _) => True
             end.
Proof.
  intros Hslow Hreply Hno st. unfold clean_url. run_unfold.
  destruct (check_quota w req st) as [[[canClean who]|e] st1]; [|done].
  destruct (allowed canClean); simpl; [|done].
  destruct (page w) as [[|c html]|]; [done| |done].
  rewrite Hslow, Hreply. simpl.
  pose proof (parse_or_throw_no_json "No JSON" response Hno).
  by destruct (parse_or_throw _ _).
Qed.

End NoJson.

Section NoJsonClaim.
Import Recipes Observe Usage Routes.

(** C1, as stated, fails: a reply without JSON in the repair stage or in
    the enhancement stage is not a failure.  The stew has six ingredients
    and one step, so the validator raises [too_few_steps] and the repair
    stage calls the AI; the AI apologises; the photo endpoint still
    delivers the recipe.  On the fast path of the URL endpoint the
    enhancement gets the same apology and the recipe is delivered too. *)
Lemma no_json_in_repair_or_enhancement_still_delivers :
  has_json (rt := Sample.runtime) (Sample.reply_text Sample.apology) = false
  /\ (exists validated,
        validateAndFixRecipe (rt := Sample.runtime) Sample.six_ingredient_recipe
        = Ok (validated, ["too_few_steps"]))
  /\ delivers_recipe
       (post_clean_photo (rt := Sample.runtime) Sample.apologetic Sample.visitor
          Sample.empty_state).1 = true
  /\ delivers_recipe
       (post_clean_url (rt := Sample.runtime) Sample.apologetic Sample.visitor
          Sample.empty_state).1 = true.
Proof.
  split; [reflexivity|]. split; [eexists; reflexivity|].
  split; vm_compute; reflexivity.
Qed.

(** C1, amended.  When the reply holds no parseable JSON object, the
    initial extraction stages ([extractRecipeFromUrl],
    [extractRecipeFromPhotos], [extractRecipeFromYouTube] and the slow path
    written out in the URL handler) throw, and their endpoints deliver no
    recipe; the repair stage ([fixRecipeIssues]) and the enhancement stage
    ([enhanceRecipeWithDualUnits]) hand back the recipe they were given,
    unchanged. *)
Theorem no_json_fails_initial_extraction_only
    (rt : Runtime) (response : ai_message) (Hno : has_json response = false) :
  is_ok (extractRecipeFromUrl (Ok response)) = false
  /\ (forall photos, is_ok (extractRecipeFromPhotos photos (Ok response)) = false)
  /\ is_ok (extractRecipeFromYouTube (Ok response)) = false
  /\ (forall w req st, extraction w = Ok response ->
        delivers_recipe (post_clean_photo w req st).1 = false)
  /\ (forall w req st, extraction w = Ok response ->
        delivers_recipe (post_clean_youtube w req st).1 = false)
  /\ (forall w req st, structured w = None -> extraction w = Ok response ->
        delivers_recipe (post_clean_url w req st).1 = false)
  /\ (forall recipe issues, fixRecipeIssues recipe issues (Ok response) = recipe)
  /\ (forall recipe, enhanceRecipeWithDualUnits recipe (Ok response) = recipe).
Proof.
  pose proof (parse_or_throw_no_json "No JSON found in response" response Hno) as Hthrow.
  repeat split.
  - exact Hthrow.
  - intros photos. unfold extractRecipeFromPhotos.
    destruct (photosToProcess photos); [exact Hthrow | done].
  - exact Hthrow.
  - intros w req st Hw. apply limited_fails. by apply clean_photo_no_json with response.
  - intros w req st Hw. apply limited_fails. by apply clean_youtube_no_json with response.
  - intros w req st Hslow Hw. apply limited_fails. by apply clean_url_no_json with response.
  - intros recipe issues. by apply fixRecipeIssues_no_json.
  - intros recipe. by apply enhanceRecipeWithDualUnits_no_json.
Qed.

(** On the apology, which holds no JSON. *)
Lemma no_json_fails_initial_extraction_only_witness :
  has_json (rt := Sample.runtime) (Sample.reply_text Sample.apology) = false
  /\ is_ok (extractRecipeFromUrl (rt := Sample.runtime) (Sample.says Sample.apology)) = false.
Proof.
  split; [reflexivity|].
  exact (proj1 (no_json_fails_initial_extraction_only Sample.runtime
                  (Sample.reply_text Sample.apology) eq_refl)).
Defined.

End NoJsonClaim.

(** ** Translation: which fields are the input's *)

Section Translation.
Import Recipes Observe Usage Routes.

(** What a successful [translateRecipe] is made of: the parsed reply with
    three properties overwritten by the input's. *)
Lemma translateRecipe_stages {rt : Runtime} (recipe : jsval) (reply : ai_reply)
    (translated : obj) :
  translateRecipe recipe reply = Ok translated ->
  exists response parsed source sourceUrl imageUrl,
    reply = Ok response
    /\ parse_or_throw "No valid JSON in response" response = Ok parsed
    /\ get recipe "source" = Ok source
    /\ get recipe "sourceUrl" = Ok sourceUrl
    /\ get recipe "imageUrl" = Ok imageUrl
    /\ translated = set_prop "imageUrl" imageUrl
                      (set_prop "sourceUrl" sourceUrl (set_prop "source" source parsed)).
Proof.
  unfold translateRecipe.
  destruct reply as [response|]; [|discriminate]. simpl.
  destruct (parse_or_throw _ response) as [parsed|] eqn:Hparsed; [|discriminate]. simpl.
  destruct (get recipe "source") as [source|] eqn:Hs; [|discriminate]. simpl.
  destruct (get recipe "sourceUrl") as [sourceUrl|] eqn:Hu; [|discriminate]. simpl.
  destruct (get recipe "imageUrl") as [imageUrl|] eqn:Hi; [|discriminate]. simpl.
  intros [= <-]. by exists response, parsed, source, sourceUrl, imageUrl.
Qed.

(** C4, as stated, fails for the numeric fields: the input has 4 servings,
    the AI's reply says 8, and the translated recipe (of the function and of
    the endpoint) has 8. *)
Lemma translateRecipe_takes_servings_from_reply :
  lookup_prop "servings" Sample.tarte = VNum 4
  /\ (exists translated,
        translateRecipe (rt := Sample.runtime) (VObj Sample.tarte)
          (Sample.says Sample.tarte_json) = Ok translated
        /\ lookup_prop "servings" translated = VNum 8
        /\ (post_translate (rt := Sample.runtime) Sample.translating
              Sample.translation_request Sample.empty_state).1 = Translated translated)
  /\ VNum 8 <> VNum 4.
Proof.
  split; [reflexivity|]. split.
  - eexists. split; [reflexivity|]. split; [reflexivity|]. vm_compute. reflexivity.
  - intros H. inversion H.
Qed.

(** C4, amended.  The recipe [translateRecipe] returns has [source],
    [sourceUrl] and [imageUrl] equal to those of the input recipe, whatever
    the AI returns; every other property, the numeric ones (servings)
    included, is the one of the object parsed from the AI's reply.  The
    same holds of the recipe the endpoint sends. *)
Theorem translateRecipe_preserves_identity_fields
    (rt : Runtime) (recipe : jsval) (reply : ai_reply) (translated : obj)
    (Hrun : translateRecipe recipe reply = Ok translated) :
  get (VObj translated) "source" = get recipe "source"
  /\ get (VObj translated) "sourceUrl" = get recipe "sourceUrl"
  /\ get (VObj translated) "imageUrl" = get recipe "imageUrl"
  /\ (exists response parsed,
        reply = Ok response
        /\ parse_or_throw "No valid JSON in response" response = Ok parsed
        /\ forall k, k <> "source" -> k <> "sourceUrl" -> k <> "imageUrl" ->
             lookup_prop k translated = lookup_prop k parsed)
  /\ (forall w req st sent,
        body_recipe req = recipe -> translation w = reply ->
        (post_translate w req st).1 = Translated sent -> sent = translated).
Proof.
  destruct (translateRecipe_stages _ _ _ Hrun)
    as (response & parsed & source & sourceUrl & imageUrl
        & -> & Hparsed & Hsource & HsourceUrl & HimageUrl & ->).
  rewrite Hsource, HsourceUrl, HimageUrl. simpl.
  split; [|split; [|split; [|split]]].
  - by rewrite !lookup_set_prop_ne, lookup_set_prop_eq by done.
  - by rewrite lookup_set_prop_ne, lookup_set_prop_eq by done.
  - by rewrite lookup_set_prop_eq.
  - exists response, parsed. split; [done|]. split; [done|].
    intros k H1 H2 H3. by rewrite !lookup_set_prop_ne by done.
  - intros w req st sent Hbody Hreply.
    unfold post_translate, asyncHandler, translate.
    rewrite Hbody, Hreply, Hrun. run_unfold.
    destruct (req_user req) as [u|]; [|done].
    destruct (_ || _); [|done].
    unfold Routes.trackSpending.
    destruct (Spending.trackSpending _ _ _) as [[b db]|]; [|done].
    by intros [= <-].
Qed.

(** On the tart and the reply that changed its servings. *)
Lemma translateRecipe_preserves_identity_fields_witness :
  translateRecipe (rt := Sample.runtime) (VObj Sample.tarte) (Sample.says Sample.tarte_json)
    = Ok [("title", VStr "Tarte aux pommes"); ("servings", VNum 8);
          ("source", VStr "Cookbook");
          ("imageUrl", VStr "https://example.com/tart.jpg");
          ("sourceUrl", VNull)]
  /\ get (VObj [("title", VStr "Tarte aux pommes"); ("servings", VNum 8);
                ("source", VStr "Cookbook");
                ("imageUrl", VStr "https://example.com/tart.jpg");
                ("sourceUrl", VNull)]) "source"
     = get (VObj Sample.tarte) "source".
Proof.
  split; [reflexivity|].
  exact (proj1 (translateRecipe_preserves_identity_fields Sample.runtime
                  (VObj Sample.tarte) (Sample.says Sample.tarte_json) _ eq_refl)).
Defined.

End Translation.

(** ** The spending ledger *)

Section Ledger.
Import Spending Observe.

Lemma reset_if_due_same (now : instant) (row : tracker) :
  (reset_if_due now row).1 =
    {| daily_date := daily_date row;
       daily_amount := (reset_if_due now row).2.(daily_amount);
       monthly_month := monthly_month row;
       monthly_amount := (reset_if_due now row).2.(monthly_amount);
       paused := (reset_if_due now row).2.(paused) |}.
Proof.
  unfold reset_if_due.
  destruct (String.eqb (daily_date row) (today now)); simpl;
    destruct (String.eqb (monthly_month row) (currentMonth now)); simpl;
    by destruct row.
Qed.

(** The accumulators after the lazy reset: zero for a period that has
    rolled over, the stored amount otherwise. *)
Lemma reset_if_due_daily (now : instant) (row : tracker) :
  (reset_if_due now row).2.(daily_amount)
  = if String.eqb (daily_date row) (today now) then daily_amount row else 0.
Proof.
  unfold reset_if_due.
  destruct (String.eqb (daily_date row) (today now)); simpl;
    destruct (String.eqb (monthly_month row) (currentMonth now)); reflexivity.
Qed.

Lemma reset_if_due_monthly (now : instant) (row : tracker) :
  (reset_if_due now row).2.(monthly_amount)
  = if String.eqb (monthly_month row) (currentMonth now) then monthly_amount row else 0.
Proof.
  unfold reset_if_due.
  destruct (String.eqb (daily_date row) (today now)); simpl;
    destruct (String.eqb (monthly_month row) (currentMonth now)); reflexivity.
Qed.

Lemma reset_if_due_dates (now : instant) (row : tracker) :
  (reset_if_due now row).2.(daily_date) = today now
  /\ (reset_if_due now row).2.(monthly_month) = currentMonth now.
Proof.
  unfold reset_if_due.
  destruct (String.eqb_spec (daily_date row) (today now)); simpl;
    destruct (String.eqb_spec (monthly_month row) (currentMonth now)); simpl; auto.
Qed.

(** [checkSpendingLimits] leaves the row after the lazy reset, with the
    flag recomputed from its accumulators. *)
Lemma checkSpendingLimits_row (now : instant) (db : table) :
  let row := (reset_if_due now (default (fresh_row now) db)).2 in
  checkSpendingLimits now db
  = (limit_reached row, Some (set_paused (limit_reached row) row)).
Proof.
  unfold checkSpendingLimits, getOrResetSpending.
  replace (match db with Some row => row | None => _ end)
    with (default (fresh_row now) db) by (by destruct db).
  pose proof (reset_if_due_same now (default (fresh_row now) db)) as Hsame.
  destruct (reset_if_due now (default (fresh_row now) db)) as [tracker row] eqn:E.
  simpl in *. subst tracker. simpl. unfold limit_reached.
  set (p := (_ <=? _) || (_ <=? _)).
  f_equal. destruct row as [dd da mm ma pa]; simpl.
  destruct p, pa; reflexivity.
Qed.

Lemma checkSpendingLimits_flag (now : instant) (db : table) :
  flag_is (checkSpendingLimits now db).1 (checkSpendingLimits now db).2.
Proof.
  rewrite checkSpendingLimits_row. simpl.
  eexists. split; [reflexivity|]. by destruct (reset_if_due _ _).2.
Qed.

End Ledger.

Section LedgerClaims.
Import Spending Observe.

Lemma isSystemPaused_daily (now : instant) (row : tracker) :
  daily_date row = today now ->
  CONFIG.DAILY_SPENDING_LIMIT <= daily_amount row ->
  (isSystemPaused now (Some row)).1 = true.
Proof.
  intros Hday Hlimit. unfold isSystemPaused.
  rewrite checkSpendingLimits_row. simpl. unfold limit_reached.
  rewrite reset_if_due_daily, Hday, String.eqb_refl.
  apply orb_true_iff. left. by apply Z.leb_le.
Qed.

Lemma isSystemPaused_monthly (now : instant) (row : tracker) :
  monthly_month row = currentMonth now ->
  CONFIG.MONTHLY_SPENDING_LIMIT <= monthly_amount row ->
  (isSystemPaused now (Some row)).1 = true.
Proof.
  intros Hmonth Hlimit. unfold isSystemPaused.
  rewrite checkSpendingLimits_row. simpl. unfold limit_reached.
  rewrite reset_if_due_monthly, Hmonth, String.eqb_refl.
  apply orb_true_iff. right. by apply Z.leb_le.
Qed.

Lemma trackSpending_row (amount : Z) (now : instant) (row : tracker) (r : bool * table) :
  trackSpending amount now (Some row) = Ok r ->
  r = checkSpendingLimits now
        (Some {| daily_date := daily_date row; daily_amount := daily_amount row + amount;
                 monthly_month := monthly_month row;
                 monthly_amount := monthly_amount row + amount;
                 paused := paused row |}).
Proof.
  unfold trackSpending, add_amount.
  destruct (fits_decimal _ && fits_decimal _); [|discriminate].
  simpl. by intros [= <-].
Qed.

(** C3.  After every operation of the ledger the stored flag is the one
    returned, and it is true exactly when the daily accumulator has reached
    the daily ceiling or the monthly accumulator the monthly ceiling.  A
    flag tripped by the daily ceiling stays true for as long as the day
    lasts, whatever the month does; one tripped by the monthly ceiling
    stays true for as long as the month lasts, whatever the day does; and
    when the period of the tripped accumulator has rolled over and the
    other accumulator is below its ceiling, the flag is false. *)
Theorem paused_exactly_while_limit_reached (now : instant) (db : table) :
  flag_is (checkSpendingLimits now db).1 (checkSpendingLimits now db).2
  /\ flag_is (isSystemPaused now db).1 (isSystemPaused now db).2
  /\ (forall amount p db', trackSpending amount now db = Ok (p, db') -> flag_is p db')
  /\ flag_is (status_paused (getSpendingStatus now db).1) (getSpendingStatus now db).2
  /\ (forall row, db = Some row -> daily_date row = today now ->
        CONFIG.DAILY_SPENDING_LIMIT <= daily_amount row ->
        (isSystemPaused now db).1 = true
        /\ forall amount p db', 0 <= amount ->
             trackSpending amount now db = Ok (p, db') -> p = true)
  /\ (forall row, db = Some row -> monthly_month row = currentMonth now ->
        CONFIG.MONTHLY_SPENDING_LIMIT <= monthly_amount row ->
        (isSystemPaused now db).1 = true
        /\ forall amount p db', 0 <= amount ->
             trackSpending amount now db = Ok (p, db') -> p = true)
  /\ (forall row, db = Some row -> daily_date row <> today now ->
        (monthly_month row = currentMonth now ->
         monthly_amount row < CONFIG.MONTHLY_SPENDING_LIMIT) ->
        (isSystemPaused now db).1 = false)
  /\ (forall row, db = Some row -> monthly_month row <> currentMonth now ->
        (daily_date row = today now -> daily_amount row < CONFIG.DAILY_SPENDING_LIMIT) ->
        (isSystemPaused now db).1 = false).
Proof.
  split; [apply checkSpendingLimits_flag|].
  split; [apply checkSpendingLimits_flag|].
  split.
  { intros amount p db' Hrun. unfold trackSpending in Hrun.
    destruct (add_amount amount db) as [db1|]; [|discriminate]. simpl in Hrun.
    injection Hrun as Hrun.
    pose proof (checkSpendingLimits_flag now db1) as Hflag.
    by rewrite Hrun in Hflag. }
  split.
  { unfold getSpendingStatus.
    destruct (getOrResetSpending now db) as [tracker db1].
    pose proof (checkSpendingLimits_flag now db1) as Hflag.
    by destruct (checkSpendingLimits now db1) as [p db2]. }
  split.
  { intros row -> Hday Hlimit. split; [by apply isSystemPaused_daily|].
    intros amount p db' Hamount Hrun. apply trackSpending_row in Hrun.
    apply (f_equal fst) in Hrun. simpl in Hrun. rewrite Hrun.
    apply isSystemPaused_daily; simpl; [done | lia]. }
  split.
  { intros row -> Hmonth Hlimit. split; [by apply isSystemPaused_monthly|].
    intros amount p db' Hamount Hrun. apply trackSpending_row in Hrun.
    apply (f_equal fst) in Hrun. simpl in Hrun. rewrite Hrun.
    apply isSystemPaused_monthly; simpl; [done | lia]. }
  split.
  { intros row -> Hday Hmonth. unfold isSystemPaused.
    rewrite checkSpendingLimits_row. simpl. unfold limit_reached.
    rewrite reset_if_due_daily, reset_if_due_monthly.
    destruct (String.eqb_spec (daily_date row) (today now)); [done|].
    apply orb_false_iff. split; [done|].
    destruct (String.eqb_spec (monthly_month row) (currentMonth now)); [|done].
    apply Z.leb_gt. auto. }
  { intros row -> Hmonth Hday. unfold isSystemPaused.
    rewrite checkSpendingLimits_row. simpl. unfold limit_reached.
    rewrite reset_if_due_daily, reset_if_due_monthly.
    destruct (String.eqb_spec (monthly_month row) (currentMonth now)); [done|].
    apply orb_false_iff. split; [|done].
    destruct (String.eqb_spec (daily_date row) (today now)); [|done].
    apply Z.leb_gt. auto. }
Qed.

(** On the ledger that reached the daily ceiling, the same day. *)
Lemma paused_exactly_while_limit_reached_witness :
  (isSystemPaused Sample.march_2nd Sample.ledger_daily_limit).1 = true.
Proof.
  refine (proj1 (proj1 (proj2 (proj2 (proj2 (proj2
    (paused_exactly_while_limit_reached Sample.march_2nd Sample.ledger_daily_limit)))))
    _ eq_refl eq_refl _)).
  vm_compute. discriminate.
Defined.

(** C2 at its failing input.  The ledger was last touched on March 1st
    with 5 dollars spent; the first access of March 2nd is
    [trackSpending] of 0.03 dollars.  After the pending reset the daily
    accumulator is 0, so it should read 0.03 dollars (300); the code adds
    the amount to the stale row and then resets it, and the daily
    accumulator reads 0: the spend after the boundary is lost.  (The
    monthly accumulator, whose period has not rolled over, is right.)  A
    request can do this: [POST /translate] records its 0.01 dollars without
    any ledger access before, and as the first request of the day it leaves
    the daily accumulator at 0. *)
Theorem trackSpending_first_access_after_midnight_loses_amount :
  daily_of (getOrResetSpending Sample.just_after_midnight Sample.ledger_march_1st).2 = 0
  /\ (exists p db,
        trackSpending 300 Sample.just_after_midnight Sample.ledger_march_1st = Ok (p, db)
        /\ daily_of db = 0
        /\ monthly_of db = 50300)
  /\ (let after := (Routes.post_translate (rt := Sample.runtime)
                      Sample.translating_after_midnight Sample.translation_request
                      Sample.state_march_1st) in
      Routes.delivers_recipe after.1 = true
      /\ daily_of (Usage.spending (Routes.store after.2)) = 0
      /\ monthly_of (Usage.spending (Routes.store after.2)) = 50100).
Proof.
  split; [reflexivity|]. split.
  - eexists _, _. split; [reflexivity|]. split; reflexivity.
  - vm_compute. repeat split; reflexivity.
Qed.

(** What does hold: with no reset pending, [trackSpending] adds the amount
    to both accumulators, exactly. *)
Lemma trackSpending_adds_within_period (amount : Z) (now : instant) (row : tracker)
    (p : bool) (db : table) :
  daily_date row = today now -> monthly_month row = currentMonth now ->
  trackSpending amount now (Some row) = Ok (p, db) ->
  daily_of db = daily_amount row + amount
  /\ monthly_of db = monthly_amount row + amount.
Proof.
  intros Hday Hmonth Hrun. apply trackSpending_row in Hrun.
  rewrite checkSpendingLimits_row in Hrun. simpl in Hrun.
  injection Hrun as _ ->. simpl.
  rewrite reset_if_due_daily, reset_if_due_monthly. simpl.
  by rewrite Hday, Hmonth, !String.eqb_refl.
Qed.

End LedgerClaims.

(** ** The usage resolver *)

Section Resolver.
Import Auth Usage Observe.

(** C5.  Whenever the ledger is paused, [canCleanRecipe] answers
    [{allowed: false, reason: 'system_limit'}] for every caller, a [pro]
    user included, and no tier or fingerprint rule is evaluated: the
    user object, the users table and the fingerprint table are left as they
    were; only the ledger carries the outcome of the pause check. *)
Theorem canCleanRecipe_paused_overrides
    (who : option user) (fingerprint ip : option string) (now : instant) (s : store)
    (Hpaused : (Spending.isSystemPaused now (spending s)).1 = true) :
  canCleanRecipe who fingerprint ip now s
  = ({| allowed := false; reason := Some "system_limit"; remaining := None;
        upgrade := None; requiresSignup := None; message := None;
        isAnonymous := None |},
     who,
     {| spending := (Spending.isSystemPaused now (spending s)).2;
        users := users s; anonymous_usage := anonymous_usage s |}).
Proof.
  unfold canCleanRecipe.
  destruct (Spending.isSystemPaused now (spending s)) as [paused db].
  simpl in Hpaused. by subst paused.
Qed.

(** A [pro] subscriber facing the tripped ledger. *)
Lemma canCleanRecipe_paused_overrides_witness :
  (canCleanRecipe (Some Sample.subscriber) (Some "fp-1") None Sample.march_2nd
     Sample.paused_store).1.1
  = {| allowed := false; reason := Some "system_limit"; remaining := None;
       upgrade := None; requiresSignup := None; message := None;
       isAnonymous := None |}.
Proof.
  exact (f_equal (fun r => r.1.1)
           (canCleanRecipe_paused_overrides (Some Sample.subscriber) (Some "fp-1") None
              Sample.march_2nd Sample.paused_store eq_refl)).
Defined.

(** C6.  With the ledger not paused, a [pro] user gets [{allowed: true}]
    whatever the usage; a [basic] user is allowed exactly while
    [recipes_used_this_month] is below 20, and a free signed-up user
    exactly while it is below 3.  [recipes_used_this_month] is read on the
    user object after [resetMonthlyUsageIfNeeded]: the stored count when it
    was started this month, zero otherwise. *)
Theorem canCleanRecipe_tiers
    (u : user) (fingerprint ip : option string) (now : instant) (s : store)
    (Hquiet : (Spending.isSystemPaused now (spending s)).1 = false) :
  let used := recipes_used_this_month (resetMonthlyUsageIfNeeded now u (users s)).1 in
  let v := (canCleanRecipe (Some u) fingerprint ip now s).1.1 in
  (subscription u = Some "pro" -> v = verdict_of true)
  /\ (subscription u = Some "basic" ->
        (allowed v = true <-> used < CONFIG.BASIC_RECIPES_PER_MONTH)
        /\ CONFIG.BASIC_RECIPES_PER_MONTH = 20)
  /\ (subscription u <> Some "pro" -> subscription u <> Some "basic" ->
        (allowed v = true <-> used < CONFIG.FREE_RECIPES_PER_MONTH)
        /\ CONFIG.FREE_RECIPES_PER_MONTH = 3)
  /\ (month_started u = Some (currentMonth now) -> used = recipes_used_this_month u)
  /\ (month_started u <> Some (currentMonth now) -> used = 0).
Proof.
  unfold canCleanRecipe.
  destruct (Spending.isSystemPaused now (spending s)) as [paused db].
  simpl in Hquiet. subst paused. simpl.
  assert (Hsub : subscription (resetMonthlyUsageIfNeeded now u (users s)).1 = subscription u).
  { unfold resetMonthlyUsageIfNeeded. by destruct (bool_decide _). }
  destruct (resetMonthlyUsageIfNeeded now u (users s)) as [u' us] eqn:Hreset.
  simpl in *. rewrite Hsub.
  split; [|split; [|split; [|split]]].
  - intros ->. by rewrite bool_decide_eq_true_2.
  - intros ->. rewrite bool_decide_eq_false_2 by done.
    rewrite bool_decide_eq_true_2 by done. simpl.
    split; [apply Z.ltb_lt | reflexivity].
  - intros Hpro Hbasic. rewrite !bool_decide_eq_false_2 by done. simpl.
    split; [apply Z.ltb_lt | reflexivity].
  - intros Hmonth. unfold resetMonthlyUsageIfNeeded in Hreset.
    rewrite bool_decide_eq_true_2 in Hreset by done. by injection Hreset as <- _.
  - intros Hmonth. unfold resetMonthlyUsageIfNeeded in Hreset.
    rewrite bool_decide_eq_false_2 in Hreset by done. by injection Hreset as <- _.
Qed.

(** A [pro] subscriber facing the quiet ledger. *)
Lemma canCleanRecipe_tiers_witness :
  (canCleanRecipe (Some Sample.subscriber) None None Sample.march_2nd
     Sample.ninth_recipe_store).1.1 = verdict_of true.
Proof.
  exact (proj1 (canCleanRecipe_tiers Sample.subscriber None None Sample.march_2nd
                  Sample.ninth_recipe_store eq_refl) eq_refl).
Defined.

(** C7.  With the ledger not paused and no authenticated user: a
    fingerprint that has used 9 recipes is allowed with [remaining = 1]
    (the answer also says [isAnonymous: true]); one that has used 10 or
    more is refused with reason [initial_limit] and [requiresSignup = true]
    (the answer also carries a message); and with no fingerprint (absent or
    empty) the answer is [{allowed: false, reason: 'no_tracking'}]. *)
Theorem canCleanRecipe_anonymous
    (fingerprint ip : option string) (now : instant) (s : store)
    (Hquiet : (Spending.isSystemPaused now (spending s)).1 = false) :
  let v := (canCleanRecipe None fingerprint ip now s).1.1 in
  (forall fp row, fingerprint = Some fp -> fp <> "" ->
     anonymous_usage s !! fp = Some row ->
     (recipes_used row = CONFIG.INITIAL_FREE_RECIPES - 1 ->
        v = {| allowed := true; reason := None; remaining := Some 1; upgrade := None;
               requiresSignup := None; message := None; isAnonymous := Some true |})
     /\ (CONFIG.INITIAL_FREE_RECIPES <= recipes_used row ->
        v = {| allowed := false; reason := Some "initial_limit"; remaining := None;
               upgrade := None; requiresSignup := Some true;
               message := Some initial_limit_message; isAnonymous := None |}))
  /\ (fingerprint = None \/ fingerprint = Some "" ->
      v = {| allowed := false; reason := Some "no_tracking"; remaining := None;
             upgrade := None; requiresSignup := None; message := None;
             isAnonymous := None |})
  /\ CONFIG.INITIAL_FREE_RECIPES = 10.
Proof.
  unfold canCleanRecipe.
  destruct (Spending.isSystemPaused now (spending s)) as [paused db].
  simpl in Hquiet. subst paused. simpl.
  split; [|split; [|reflexivity]].
  - intros fp row -> Hfp Hrow.
    destruct (String.eqb_spec fp ""); [done|].
    unfold getAnonymousUsage. simpl. rewrite Hrow. simpl. split.
    + intros ->. reflexivity.
    + intros Hused. apply Z.ltb_ge in Hused. by rewrite Hused.
  - by intros [-> | ->].
Qed.

(** The fingerprint that has used 9 recipes. *)
Lemma canCleanRecipe_anonymous_witness :
  (canCleanRecipe None (Some "fp-1") (Some "203.0.113.7") Sample.march_2nd
     Sample.ninth_recipe_store).1.1
  = {| allowed := true; reason := None; remaining := Some 1; upgrade := None;
       requiresSignup := None; message := None; isAnonymous := Some true |}.
Proof.
  refine (proj1 (proj1 (canCleanRecipe_anonymous (Some "fp-1") (Some "203.0.113.7")
                  Sample.march_2nd Sample.ninth_recipe_store eq_refl)
                  "fp-1" Sample.nine_used eq_refl _ _) eq_refl).
  - discriminate.
  - vm_compute. reflexivity.
Defined.

End Resolver.

(** ** The rate limiter *)

Section Limiter.
Import RateLimiter.

(** While the stored window has not expired, a request is counted in it. *)
Lemma rateLimiter_same_window (opts : options) (k : key) (now : Z)
    (requests : gmap key window) (data : window) :
  requests !! k = Some data ->
  now - windowStart data <= windowMs opts ->
  rateLimiter opts k now requests
  = (negb (max opts <? count data + 1),
     <[k := {| windowStart := windowStart data; count := count data + 1 |}]> requests).
Proof.
  intros Hk Hnow. unfold rateLimiter, current_window. rewrite Hk.
  by rewrite (proj2 (Z.ltb_ge _ _) Hnow).
Qed.

(** With no window, or an expired one, the request opens a new window and
    is its first. *)
Lemma rateLimiter_new_window (opts : options) (k : key) (now : Z)
    (requests : gmap key window) :
  match requests !! k with
  | Some data => windowMs opts < now - windowStart data
  | None => True
  end ->
  rateLimiter opts k now requests
  = (negb (max opts <? 1), <[k := {| windowStart := now; count := 1 |}]> requests).
Proof.
  intros Hk. unfold rateLimiter, current_window.
  destruct (requests !! k) as [data|]; [|done].
  by rewrite (proj2 (Z.ltb_lt _ _) Hk).
Qed.

(** A step that is not of [k], or that is of [k] within its window, keeps
    the window of [k]; a request of [k] adds one to its count. *)
Lemma step_within_window (k : key) (e : event) (requests : gmap key window) (t0 c : Z) :
  requests !! k = Some {| windowStart := t0; count := c |} ->
  time_of e - t0 <= 60000 ->
  exists c',
    (step e requests).2 !! k = Some {| windowStart := t0; count := c' |}
    /\ c <= c'
    /\ (is_recipe_of k e = true -> c' = c + 1 /\ (step e requests).1 = negb (10 <? c + 1)).
Proof.
  intros Hk Hnow. destruct e as [k' now|k' now|now]; cbn [step time_of is_recipe_of] in *.
  - destruct (decide (k' = k)) as [->|Hne].
    + rewrite (rateLimiter_same_window _ _ _ _ _ Hk) by done. simpl.
      rewrite lookup_insert_eq. exists (c + 1). split; [done|]. split; [lia|].
      by rewrite bool_decide_eq_true_2.
    + exists c. unfold rateLimiter. simpl. rewrite lookup_insert_ne by done.
      split; [done|]. split; [lia|]. by rewrite bool_decide_eq_false_2.
  - destruct (decide (k' = k)) as [->|Hne].
    + rewrite (rateLimiter_same_window _ _ _ _ _ Hk) by done. simpl.
      rewrite lookup_insert_eq. exists (c + 1). split; [done|]. split; [lia|done].
    + exists c. unfold rateLimiter. simpl. rewrite lookup_insert_ne by done.
      split; [done|]. split; [lia|done].
  - exists c. split; [|split; [lia|done]].
    simpl. unfold sweep. apply map_lookup_filter_Some. split; [done|]. simpl.
    by rewrite (proj2 (Z.ltb_ge _ _) Hnow).
Qed.

(** Within one window of [k], at most [10 - c] more requests of [k] pass
    the strict limiter when the count stands at [c]. *)
Lemma passed_within_window (k : key) (es : list event) (requests : gmap key window)
    (t0 c : Z) :
  requests !! k = Some {| windowStart := t0; count := c |} ->
  Forall (fun e => time_of e - t0 <= 60000) es ->
  Z.of_nat (passed k es requests).1 <= Z.max 0 (10 - c).
Proof.
  revert requests c. induction es as [|e es IH]; intros requests c Hk Hes; simpl.
  - lia.
  - inversion Hes as [|? ? He Hes']; subst.
    destruct (step_within_window k e requests t0 c Hk He) as (c' & Hk' & Hc & Hrecipe).
    destruct (step e requests) as [ok requests1]. simpl in *.
    specialize (IH requests1 c' Hk' Hes').
    destruct (passed k es requests1) as [n requests2]. simpl in *.
    destruct (is_recipe_of k e); simpl; [|lia].
    destruct (Hrecipe eq_refl) as [-> ->].
    destruct (Z.ltb_spec 10 (c + 1)); simpl; lia.
Qed.

End Limiter.

Section LimiterClaim.
Import RateLimiter Routes.

(** C9.  For every identity [k]: from the request that opens a window of
    [k] and for as long as that window lasts (60 seconds), at most 10
    requests of [k] pass the strict limiter, whatever else happens to the
    map meanwhile (requests of others, requests through the general
    limiter, which shares the map, clean-ups), and the same bound holds from
    any point of a window on; a request of [k] in a window whose count has
    reached 10 is rejected, and a rejected request is answered 429 with the
    store (ledger, users, fingerprints) and the usage commits untouched,
    the handler never running; and a request that finds the window expired
    replaces it by a new window with count 1 (it does not decrement). *)
Theorem strict_limiter_at_most_ten_per_window (k : key) (requests : gmap key window) :
  (forall t0 es,
     match requests !! k with
     | Some data => 60000 < t0 - windowStart data
     | None => True
     end ->
     Forall (fun e => time_of e - t0 <= 60000) es ->
     ((passed k (Recipe k t0 :: es) requests).1 <= 10)%nat)
  /\ (forall data es,
        requests !! k = Some data -> 0 <= count data ->
        Forall (fun e => time_of e - windowStart data <= 60000) es ->
        ((passed k es requests).1 <= 10)%nat)
  /\ (forall now data,
        requests !! k = Some data -> now - windowStart data <= 60000 ->
        10 <= count data ->
        (rateLimiter recipeRateLimiter k now requests).1 = false)
  /\ (forall h w req st,
        (rateLimiter recipeRateLimiter (key_of (req_user req) (req_ip req)) (now_ms w)
           (Routes.requests st)).1 = false ->
        exists st',
          limited h w req st
          = (Failed 429 (Some "Too many requests. Please try again later."), st')
          /\ store st' = store st /\ committed st' = committed st)
  /\ (forall now data,
        requests !! k = Some data -> 60000 < now - windowStart data ->
        rateLimiter recipeRateLimiter k now requests
        = (true, <[k := {| windowStart := now; count := 1 |}]> requests)).
Proof.
  split; [|split; [|split; [|split]]].
  - intros t0 es Hfresh Hes. cbn [passed step].
    rewrite (rateLimiter_new_window recipeRateLimiter k t0 requests Hfresh).
    pose proof (passed_within_window k es
                  (<[k := {| windowStart := t0; count := 1 |}]> requests) t0 1
                  (lookup_insert_eq _ _ _) Hes) as Hbound.
    destruct (passed k es _) as [n requests']. simpl in *.
    rewrite bool_decide_eq_true_2 by done. simpl. lia.
  - intros [t0 c] es Hk Hcount Hes. simpl in *.
    pose proof (passed_within_window k es requests t0 c Hk Hes). lia.
  - intros now data Hk Hnow Hcount.
    rewrite (rateLimiter_same_window recipeRateLimiter k now requests data Hk Hnow).
    simpl. apply negb_false_iff, Z.ltb_lt. lia.
  - intros h w req st Hreject. unfold limited.
    destruct (rateLimiter _ _ _ _) as [ok rq]. simpl in Hreject. subst ok.
    by eexists.
  - intros now data Hk Hnow.
    apply (rateLimiter_new_window recipeRateLimiter). by rewrite Hk.
Qed.

(** One address, three extraction requests and one other request within a minute. *)
Lemma strict_limiter_at_most_ten_per_window_witness :
  ((passed (inr "203.0.113.7")
      [Recipe (inr "203.0.113.7") 0; Recipe (inr "203.0.113.7") 1000;
       Api (inr "203.0.113.7") 2000; Recipe (inr "203.0.113.7") 60000] ∅).1 <= 10)%nat.
Proof.
  refine (proj1 (strict_limiter_at_most_ten_per_window (inr "203.0.113.7") ∅) 0
            [Recipe (inr "203.0.113.7") 1000; Api (inr "203.0.113.7") 2000;
             Recipe (inr "203.0.113.7") 60000] I _).
  repeat constructor; simpl; discriminate.
Defined.

End LimiterClaim.

(** ** Usage is committed only after a successful extraction *)

Section Commit.
Context {rt : Runtime}.
Import Recipes Auth Usage Observe Routes.





Lemma resetMonthlyUsageIfNeeded_twice (now : instant) (u : user) (us us' : gmap Z user) :
  resetMonthlyUsageIfNeeded now (resetMonthlyUsageIfNeeded now u us).1 us'
  = ((resetMonthlyUsageIfNeeded now u us).1, us').
Proof.
  unfold resetMonthlyUsageIfNeeded.
  destruct (bool_decide (month_started u = _)) eqn:E; simpl.
  - by rewrite E.
  - by rewrite bool_decide_eq_true_2.
Qed.










End Commit.

Section CommitClaim.
Import Recipes Auth Usage Observe Routes.




End CommitClaim.

(** ** More on the spending ledger *)

Section LedgerMore.
Import Spending Observe.

Lemma substring_prefix_prefix (n m : nat) (s : string) :
  (n <= m)%nat -> String.substring 0 n (String.substring 0 m s) = String.substring 0 n s.
Proof.
  revert n m. induction s as [|c s IH]; intros n m Hnm.
  - destruct n, m; reflexivity.
  - destruct n as [|n]; [by destruct m|].
    destruct m as [|m]; [lia|]. simpl. f_equal. apply IH. lia.
Qed.

Lemma currentMonth_today (now : instant) :
  String.substring 0 7 (today now) = currentMonth now.
Proof. unfold today, currentMonth. apply substring_prefix_prefix. lia. Qed.

(** A row whose dates are current is left alone by the lazy reset. *)
Lemma reset_if_due_current (now : instant) (row : tracker) :
  daily_date row = today now -> monthly_month row = currentMonth now ->
  reset_if_due now row = (row, row).
Proof.
  intros Hday%String.eqb_eq Hmonth%String.eqb_eq. unfold reset_if_due. cbv zeta.
  rewrite Hday. simpl. by rewrite Hmonth.
Qed.

(** X2.  Reading the ledger twice at the same instant is reading it once:
    the second [checkSpendingLimits] returns the same flag and leaves the
    table the first one left. *)
Theorem checkSpendingLimits_idempotent (now : instant) (db : table) :
  checkSpendingLimits now (checkSpendingLimits now db).2 = checkSpendingLimits now db.
Proof.
  rewrite (checkSpendingLimits_row now db). simpl.
  set (row := (reset_if_due now (default (fresh_row now) db)).2).
  rewrite checkSpendingLimits_row. simpl.
  destruct (reset_if_due_dates now (default (fresh_row now) db)) as [Hday Hmonth].
  fold row in Hday, Hmonth.
  rewrite reset_if_due_current by done. simpl.
  assert (Hsame : limit_reached (set_paused (limit_reached row) row) = limit_reached row)
    by reflexivity.
  by rewrite Hsame.
Qed.

(** After any access the stored dates are the current ones. *)
Lemma checkSpendingLimits_dates (now : instant) (db : table) :
  exists row, (checkSpendingLimits now db).2 = Some row
              /\ daily_date row = today now /\ monthly_month row = currentMonth now.
Proof.
  rewrite checkSpendingLimits_row. simpl. eexists. split; [reflexivity|].
  destruct (reset_if_due_dates now (default (fresh_row now) db)). by split.
Qed.

Lemma checkSpendingLimits_in_order (now : instant) (db : table) :
  (db = None \/ Ledger.in_order db) -> Ledger.in_order (checkSpendingLimits now db).2.
Proof.
  intros Hdb. rewrite checkSpendingLimits_row. simpl.
  eexists. split; [reflexivity|]. simpl.
  destruct (reset_if_due_dates now (default (fresh_row now) db)) as [Hday Hmonth].
  rewrite Hday, Hmonth, currentMonth_today. split; [done|].
  rewrite reset_if_due_daily, reset_if_due_monthly.
  destruct Hdb as [-> | (row & -> & Hcoherent & Hamounts)]; simpl.
  - rewrite !String.eqb_refl. lia.
  - destruct (String.eqb_spec (daily_date row) (today now)) as [Hd|Hd];
      destruct (String.eqb_spec (monthly_month row) (currentMonth now)) as [Hm|Hm]; try lia.
    destruct Hm. by rewrite Hcoherent, Hd, currentMonth_today.
Qed.

(** X3.  The ledger stays in order.  From an empty table or from a row in
    order, every operation ([checkSpendingLimits], [isSystemPaused],
    [getSpendingStatus], and [trackSpending] of an amount that is not
    negative) leaves a row in which the month stored is the month of the
    day stored and the day's spend is between zero and the month's. *)
Theorem ledger_stays_in_order (now : instant) (db : table)
    (Hdb : db = None \/ Ledger.in_order db) :
  Ledger.in_order (checkSpendingLimits now db).2
  /\ Ledger.in_order (isSystemPaused now db).2
  /\ Ledger.in_order (getSpendingStatus now db).2
  /\ (forall amount p db', 0 <= amount ->
        trackSpending amount now db = Ok (p, db') -> Ledger.in_order db').
Proof.
  split; [by apply checkSpendingLimits_in_order|].
  split; [by apply checkSpendingLimits_in_order|].
  split.
  - unfold getSpendingStatus.
    pose proof (checkSpendingLimits_in_order now db Hdb) as Hfirst.
    assert (Hreset : (getOrResetSpending now db).2
                     = Some (reset_if_due now (default (fresh_row now) db)).2).
    { unfold getOrResetSpending.
      replace (match db with Some row => row | None => _ end)
        with (default (fresh_row now) db) by (by destruct db).
      by destruct (reset_if_due _ _). }
    destruct (getOrResetSpending now db) as [tracker db1]. simpl in Hreset. subst db1.
    assert (Hmid : Ledger.in_order (Some (reset_if_due now (default (fresh_row now) db)).2)).
    { rewrite checkSpendingLimits_row in Hfirst. simpl in Hfirst.
      destruct Hfirst as (row & [= <-] & Hrow). by eexists. }
    pose proof (checkSpendingLimits_in_order now _ (or_intror Hmid)) as Hsecond.
    by destruct (checkSpendingLimits now
                   (Some (reset_if_due now (default (fresh_row now) db)).2)).
  - intros amount p db' Hamount Hrun.
    destruct db as [row|].
    + apply trackSpending_row in Hrun.
      apply (f_equal snd) in Hrun. simpl in Hrun. subst db'.
      apply checkSpendingLimits_in_order. right.
      destruct Hdb as [? | (row' & [= <-] & Hcoherent & Hamounts)]; [done|].
      eexists. split; [reflexivity|]. simpl. split; [done | lia].
    + unfold trackSpending in Hrun. simpl in Hrun. injection Hrun as Hrun.
      apply (f_equal snd) in Hrun. simpl in Hrun. subst db'.
      apply checkSpendingLimits_in_order. by left.
Qed.

(** An empty table, read on March 2nd. *)
Lemma ledger_stays_in_order_witness :
  Ledger.in_order (checkSpendingLimits Sample.march_2nd None).2.
Proof.
  exact (proj1 (ledger_stays_in_order Sample.march_2nd None (or_introl eq_refl))).
Defined.


(** What one charge leaves when the row is current and the sums fit. *)
Lemma trackSpending_current (amount : Z) (now : instant) (row : tracker) (r : bool * table) :
  daily_date row = today now -> monthly_month row = currentMonth now ->
  trackSpending amount now (Some row) = Ok r ->
  let charged := {| daily_date := daily_date row; daily_amount := daily_amount row + amount;
                    monthly_month := monthly_month row;
                    monthly_amount := monthly_amount row + amount;
                    paused := limit_reached
                                {| daily_date := daily_date row;
                                   daily_amount := daily_amount row + amount;
                                   monthly_month := monthly_month row;
                                   monthly_amount := monthly_amount row + amount;
                                   paused := paused row |} |} in
  fits_decimal (daily_amount row + amount) && fits_decimal (monthly_amount row + amount) = true
  /\ r = (paused charged, Some charged).
Proof.
  intros Hday Hmonth. unfold trackSpending, add_amount.
  destruct (fits_decimal _ && fits_decimal _); [|discriminate].
  cbn [mbind result_bind mret result_ret]. intros [= <-]. split; [done|].
  rewrite checkSpendingLimits_row. cbn [default].
  by rewrite reset_if_due_current.
Qed.

(** X1.  Charges add up.  On a row whose dates are current, two charges
    made on the same day, both accepted, leave the table and return the flag
    that the single charge of their sum leaves and returns. *)
Theorem trackSpending_charges_add_up (a b : Z) (first second : instant) (row : tracker)
    (p1 p2 : bool) (db1 db2 : table)
    (Hday : daily_date row = today first) (Hmonth : monthly_month row = currentMonth first)
    (Hlater : today second = today first)
    (Hfirst : trackSpending a first (Some row) = Ok (p1, db1))
    (Hsecond : trackSpending b second db1 = Ok (p2, db2)) :
  trackSpending (a + b) second (Some row) = Ok (p2, db2).
Proof.
  assert (Hmonths : currentMonth second = currentMonth first)
    by (by rewrite <- (currentMonth_today second), <- (currentMonth_today first), Hlater).
  apply trackSpending_current in Hfirst as [_ [= -> ->]]; [|done..].
  apply trackSpending_current in Hsecond as [Hfits ->];
    [|by cbn [daily_date]; rewrite Hlater|by cbn [monthly_month]; rewrite Hmonths].
  cbn [daily_date daily_amount monthly_month monthly_amount paused] in *.
  unfold trackSpending, add_amount. rewrite !Z.add_assoc, Hfits.
  cbn [mbind result_bind mret result_ret].
  rewrite checkSpendingLimits_row. cbn [default].
  rewrite reset_if_due_current
    by (cbn [daily_date monthly_month]; by rewrite ?Hlater, ?Hmonths).
  reflexivity.
Qed.

(** Three cents and then two cents on March 1st, against five cents at once. *)
Lemma trackSpending_charges_add_up_witness :
  trackSpending (300 + 200) "2026-03-01T23:59:00.000Z"
    (Some {| daily_date := "2026-03-01"; daily_amount := 50000;
             monthly_month := "2026-03"; monthly_amount := 50000; paused := false |})
  = Ok (false, Some {| daily_date := "2026-03-01"; daily_amount := 50500;
                       monthly_month := "2026-03"; monthly_amount := 50500;
                       paused := false |}).
Proof.
  apply (trackSpending_charges_add_up 300 200
           "2026-03-01T08:00:00.000Z" "2026-03-01T23:59:00.000Z"
           {| daily_date := "2026-03-01"; daily_amount := 50000;
              monthly_month := "2026-03"; monthly_amount := 50000; paused := false |}
           false false
           (Some {| daily_date := "2026-03-01"; daily_amount := 50300;
                    monthly_month := "2026-03"; monthly_amount := 50300; paused := false |})
           (Some {| daily_date := "2026-03-01"; daily_amount := 50500;
                    monthly_month := "2026-03"; monthly_amount := 50500; paused := false |}));
    vm_compute; reflexivity.
Defined.

End LedgerMore.

(** ** More on quotas *)

Section QuotaHandlers.
Context {rt : Runtime}.
Import Recipes Auth Usage Observe Routes Quota.

Lemma spend_commit_respond_settles (amount : Z) (w : outside) (req : request)
    (canClean : verdict) (who : option user) (recipe : obj) (st1 : state) :
  allowed canClean = true ->
  match (_ ← trackSpending amount w; commit_and_respond who req canClean recipe) st1 with
  | (Ok (Extracted _ remains), st') =>
      allowed canClean = true
      /\ remains = recipesRemaining who canClean
      /\ exists db,
           st' = (commit_usage who (body_fingerprint req)
                    (with_store (with_spending db (store st1)) st1)).2
  | (Ok (Translated _), _) => False
  | (_, st') => st' = st1
  end.
Proof.
  intros Hallowed. run_unfold. unfold trackSpending.
  destruct (Spending.trackSpending _ _ _) as [[p db]|]; [|done].
  unfold commit_usage. simpl.
  destruct who as [u|]; [by repeat split; try exists db|].
  destruct (body_fingerprint req) as [fp|]; [|by repeat split; try exists db].
  destruct (String.eqb fp ""); by repeat split; try exists db.
Qed.

Lemma clean_photo_settles (w : outside) (req : request) : settles w req (clean_photo w req).
Proof.
  intros st canClean who st1 Hq. unfold clean_photo. run_unfold. rewrite Hq. simpl.
  destruct (allowed canClean) eqn:Hallowed; simpl; [|done].
  destruct (extractRecipeFromPhotos _ _) as [recipe|]; [|done]. simpl.
  destruct (validate_and_repair recipe (repair w)) as [repaired|]; [|done]. simpl.
  assert (Htail := spend_commit_respond_settles CONFIG.COST_PER_PHOTO_RECIPE w req canClean
                     who repaired st1 Hallowed).
  run_unfold_in Htail. rewrite Hallowed in Htail.
  destruct (trackSpending _ w st1) as [[[]|] st2]; [|done].
  exact Htail.
Qed.

Lemma clean_youtube_settles (w : outside) (req : request) :
  settles w req (clean_youtube w req).
Proof.
  intros st canClean who st1 Hq. unfold clean_youtube. run_unfold. rewrite Hq. simpl.
  destruct (allowed canClean) eqn:Hallowed; simpl; [|done].
  destruct (body_url req) as [| | | |url| |]; try done.
  destruct (videoIdMatch url) as [videoId|]; [|done].
  destruct (transcript w) as [text|]; [|done]. simpl.
  destruct (String.length text <? 50)%nat; [done|].
  destruct (extractRecipeFromYouTube _) as [recipe|]; [|done]. simpl.
  destruct (validate_and_repair _ (repair w)) as [repaired|]; [|done]. simpl.
  assert (Htail := spend_commit_respond_settles (CONFIG.COST_PER_URL_RECIPE * 3 / 2) w req
                     canClean who repaired st1 Hallowed).
  run_unfold_in Htail. rewrite Hallowed in Htail.
  destruct (trackSpending _ w st1) as [[[]|] st2]; [|done].
  exact Htail.
Qed.

Lemma clean_url_settles (w : outside) (req : request) : settles w req (clean_url w req).
Proof.
  intros st canClean who st1 Hq. unfold clean_url. run_unfold. rewrite Hq. simpl.
  destruct (allowed canClean) eqn:Hallowed; simpl; [|done].
  destruct (page w) as [[|c html]|]; [done| |done].
  destruct (structured w) as [[converted|]|]; simpl; [| done |].
  - destruct (validate_and_repair converted (repair w)) as [repaired|]; [|done]. simpl.
    assert (Htail := spend_commit_respond_settles (CONFIG.COST_PER_URL_RECIPE / 2) w req
                       canClean who (enhanceRecipeWithDualUnits repaired (enhancement w))
                       st1 Hallowed).
    run_unfold_in Htail. rewrite Hallowed in Htail.
    destruct (trackSpending _ w st1) as [[[]|] st2]; [|done].
    exact Htail.
  - destruct (extraction w) as [response|]; [|done]. simpl.
    destruct (parse_or_throw "No JSON" response) as [recipe|]; [|done]. simpl.
    destruct (validate_and_repair _ (repair w)) as [repaired|]; [|done]. simpl.
    assert (Htail := spend_commit_respond_settles CONFIG.COST_PER_URL_RECIPE w req
                       canClean who repaired st1 Hallowed).
    run_unfold_in Htail. rewrite Hallowed in Htail.
    destruct (trackSpending _ w st1) as [[[]|] st2]; [|done].
    exact Htail.
Qed.

Lemma extraction_endpoint_settles
    (post : outside -> request -> state -> response * state) :
  post ∈ extraction_endpoints ->
  exists h, post = limited h /\ forall w req, settles w req (h w req).
Proof.
  unfold extraction_endpoints. rewrite !elem_of_cons, elem_of_nil.
  intros [-> | [-> | [-> | []]]].
  - exists clean_url. split; [done | apply clean_url_settles].
  - exists clean_photo. split; [done | apply clean_photo_settles].
  - exists clean_youtube. split; [done | apply clean_youtube_settles].
Qed.

End QuotaHandlers.

Section QuotaMore.
Import Recipes Auth Usage Observe Routes Quota.

(** The object [resetMonthlyUsageIfNeeded] returns keeps its identity, and
    is the user's row if the object it was given was. *)
Lemma resetMonthlyUsageIfNeeded_object (now : instant) (u : user) (us : gmap Z user) :
  let u' := (resetMonthlyUsageIfNeeded now u us).1 in
  let us' := (resetMonthlyUsageIfNeeded now u us).2 in
  id u' = id u /\ subscription u' = subscription u
  /\ total_recipes_ever u' = total_recipes_ever u
  /\ (us !! id u = Some u -> us' !! id u = Some u').
Proof.
  unfold resetMonthlyUsageIfNeeded.
  destruct (bool_decide (month_started u = Some (currentMonth now))); simpl; [done|].
  repeat split. intros Hrow. unfold update_user. by rewrite lookup_alter_eq, Hrow.
Qed.

(** X5.  With the ledger not paused, [canCleanRecipe] and
    [getRemainingRecipes] agree on a signed-up user: where
    [getRemainingRecipes] of the user object says [Infinity] the answer is
    [{allowed: true}], and where it says a number the answer allows the
    extraction exactly when the number is positive, and the number is the
    answer's [remaining], cut at zero. *)
Theorem canCleanRecipe_agrees_with_getRemainingRecipes
    (u : user) (fingerprint ip : option string) (now : instant) (s : Usage.store)
    (Hquiet : (Spending.isSystemPaused now (spending s)).1 = false) :
  exists u',
    (canCleanRecipe (Some u) fingerprint ip now s).1.2 = Some u'
    /\ u' = (resetMonthlyUsageIfNeeded now u (users s)).1
    /\ match getRemainingRecipes (Some u') with
       | Infinity => (canCleanRecipe (Some u) fingerprint ip now s).1.1 = verdict_of true
       | Finite n =>
           (allowed (canCleanRecipe (Some u) fingerprint ip now s).1.1 = true <-> 0 < n)
           /\ exists r, remaining (canCleanRecipe (Some u) fingerprint ip now s).1.1 = Some r
                        /\ n = Z.max 0 r
       end.
Proof.
  unfold canCleanRecipe, getRemainingRecipes.
  destruct (Spending.isSystemPaused now (spending s)) as [paused db].
  simpl in Hquiet. subst paused. simpl.
  destruct (resetMonthlyUsageIfNeeded now u (users s)) as [u' us]. simpl.
  exists u'.
  destruct (bool_decide (subscription u' = Some "pro")); simpl; [done|].
  destruct (bool_decide (subscription u' = Some "basic")); simpl.
  - split; [done|]. split; [done|]. split; [rewrite Z.ltb_lt; lia | by eexists].
  - split; [done|]. split; [done|]. split; [rewrite Z.ltb_lt; lia | by eexists].
Qed.

(** The free user with one recipe left. *)
Lemma canCleanRecipe_agrees_with_getRemainingRecipes_witness :
  exists u',
    (canCleanRecipe (Some Sample2.free_user) None None Sample.march_2nd
       Sample.ninth_recipe_store).1.2 = Some u'
    /\ getRemainingRecipes (Some u') = Finite 1.
Proof.
  destruct (canCleanRecipe_agrees_with_getRemainingRecipes Sample2.free_user None None
              Sample.march_2nd Sample.ninth_recipe_store eq_refl) as (u' & Hwho & Hu' & _).
  exists u'. split; [exact Hwho|]. rewrite Hu'. reflexivity.
Defined.

End QuotaMore.

Section QuotaThroughEndpoints.
Import Recipes Auth Usage Observe Routes Quota.




(** The quota check of a user whose session object is the stored row. *)
Lemma check_quota_user (w : outside) (req : request) (st : state) (u : user)
    (canClean : verdict) (who : option user) (st1 : state) :
  req_user req = Some u -> users (store st) !! id u = Some u ->
  check_quota w req st = (Ok (canClean, who), st1) ->
  let u' := (resetMonthlyUsageIfNeeded (now w) u (users (store st))).1 in
  who = Some u' /\ users (store st1) !! id u = Some u'.
Proof.
  intros Huser Hrow. unfold check_quota. rewrite Huser.
  pose proof (resetMonthlyUsageIfNeeded_object (now w) u (users (store st)))
    as (_ & _ & _ & Hrow').
  pose proof (resetMonthlyUsageIfNeeded_twice (now w) u (users (store st))) as Htwice.
  specialize (Hrow' Hrow).
  destruct (resetMonthlyUsageIfNeeded (now w) u (users (store st))) as [u' us].
  simpl in *. unfold canCleanRecipe. simpl.
  destruct (Spending.isSystemPaused _ _) as [[|] db]; simpl.
  - by intros [= <- <- <-].
  - rewrite Htwice.
    by repeat destruct (bool_decide _); intros [= <- <- <-].
Qed.

(** X7.  Through every extraction endpoint, for a user whose session
    object is the row of the users table: when a recipe is delivered, the
    user's row has its monthly count and its lifetime total raised by
    exactly one over the values after the lazy monthly reset, and the
    [recipesRemaining] of the response is [getRemainingRecipes] of that
    row: the number sent is the number stored. *)
Theorem user_count_follows_delivery
    (rt : Runtime) (post : outside -> request -> state -> response * state)
    (Hpost : post ∈ extraction_endpoints)
    (w : outside) (req : request) (st : state) (u : user)
    (Huser : req_user req = Some u) (Hrow : users (store st) !! id u = Some u)
    (Hdelivered : delivers_recipe (post w req st).1 = true) :
  let u' := (resetMonthlyUsageIfNeeded (now w) u (users (store st))).1 in
  exists row recipe,
    users (store (post w req st).2) !! id u = Some row
    /\ recipes_used_this_month row = recipes_used_this_month u' + 1
    /\ total_recipes_ever row = total_recipes_ever u + 1
    /\ subscription row = subscription u
    /\ (post w req st).1 = Extracted recipe (getRemainingRecipes (Some row)).
Proof.
  destruct (extraction_endpoint_settles post Hpost) as (h & -> & Hh).
  revert Hdelivered. unfold limited.
  destruct (RateLimiter.rateLimiter _ _ _ _) as [[|] rq]; simpl; [|done].
  destruct (check_quota_ok w req (with_requests rq st)) as (canClean & who & Hok).
  destruct (check_quota w req (with_requests rq st)) as [q st1] eqn:Hq.
  simpl in Hok. subst q.
  specialize (Hh w req (with_requests rq st) canClean who st1 Hq).
  destruct (check_quota_user w req (with_requests rq st) u canClean who st1 Huser Hrow Hq)
    as [-> Hrow1].
  simpl in Hrow1.
  pose proof (resetMonthlyUsageIfNeeded_object (now w) u (users (store st)))
    as (Hid & Hsub & Htotal & _).
  set (u' := (resetMonthlyUsageIfNeeded (now w) u (users (store st))).1) in *.
  unfold asyncHandler.
  destruct (h w req (with_requests rq st)) as [[r|e] st']; [|done].
  destruct r as [recipe remains| | |]; simpl; try done.
  destruct Hh as (Hyes & -> & db & ->). intros _.
  exists (with_usage (recipes_used_this_month u' + 1) (month_started u')
            (total_recipes_ever u' + 1) u'), recipe.
  unfold commit_usage. simpl. fold u'.
  unfold incrementUserUsage, update_user.
  rewrite Hid, lookup_alter_eq, Hrow1. simpl.
  split; [reflexivity|]. split; [done|]. split; [by rewrite Htotal|].
  split; [done|]. reflexivity.
Qed.

(** The free user with one recipe left sends photos: the count goes from 2
    to 3 and the response says 0 remain. *)
Lemma user_count_follows_delivery_witness :
  exists row recipe,
    users (store (post_clean_photo (rt := Sample.runtime) Sample.apologetic
                    Sample2.free_user_request Sample2.free_user_state).2) !! 9 = Some row
    /\ recipes_used_this_month row = 2 + 1
    /\ (post_clean_photo (rt := Sample.runtime) Sample.apologetic
          Sample2.free_user_request Sample2.free_user_state).1
       = Extracted recipe (Finite 0).
Proof.
  destruct (user_count_follows_delivery Sample.runtime post_clean_photo
              (list_elem_of_further _ _ _ (list_elem_of_here _ _))
              Sample.apologetic Sample2.free_user_request Sample2.free_user_state
              Sample2.free_user eq_refl eq_refl eq_refl)
    as (row & recipe & Hrow & Hused & _ & Hsub & Hresponse).
  exists row, recipe. split; [exact Hrow|]. split; [exact Hused|].
  rewrite Hresponse. f_equal. unfold getRemainingRecipes.
  rewrite Hsub. simpl. rewrite Hused. reflexivity.
Defined.

End QuotaThroughEndpoints.

(** ** More on the rate limiter *)

Section LimiterMore.
Import RateLimiter.

(** X9.  The periodic clean-up never changes what a limiter decides: for
    either limiter, a request at or after the time of a clean-up gets the
    same answer, and leaves the same window for its key, as it would have
    without the clean-up.  (The clean-up only removes windows that the next
    request of their key would replace.) *)
Theorem sweep_is_invisible (opts : options) (k : key) (swept now : Z)
    (requests : gmap key window)
    (Hopts : opts = recipeRateLimiter \/ opts = apiRateLimiter)
    (Hlater : swept <= now) :
  (rateLimiter opts k now (sweep swept requests)).1 = (rateLimiter opts k now requests).1
  /\ (rateLimiter opts k now (sweep swept requests)).2 !! k
     = (rateLimiter opts k now requests).2 !! k.
Proof.
  assert (Hms : windowMs opts = 60000) by (by destruct Hopts as [-> | ->]).
  assert (Hwindow : current_window opts now (sweep swept requests !! k)
                    = current_window opts now (requests !! k)).
  { unfold sweep, current_window. rewrite Hms.
    destruct (requests !! k) as [data|] eqn:Hk.
    - destruct (Z.ltb_spec 60000 (swept - windowStart data)) as [Hold|Hfresh].
      + match goal with
        | |- context [filter ?P requests !! k] =>
            assert (filter P requests !! k = None) as ->
        end.
        { apply map_lookup_filter_None. right. intros data' Hk'. simpl.
          rewrite Hk in Hk'. injection Hk' as <-.
          rewrite (proj2 (Z.ltb_lt _ _)) by lia. done. }
        by rewrite (proj2 (Z.ltb_lt _ _)) by lia.
      + match goal with
        | |- context [filter ?P requests !! k] =>
            assert (filter P requests !! k = Some data) as ->
        end; [|done].
        apply map_lookup_filter_Some. split; [done|]. simpl.
        by rewrite (proj2 (Z.ltb_ge _ _)).
    - match goal with
      | |- context [filter ?P requests !! k] =>
          assert (filter P requests !! k = None) as ->
      end; [|done].
      apply map_lookup_filter_None. by left. }
  unfold rateLimiter. rewrite Hwindow. simpl. by rewrite !lookup_insert_eq.
Qed.

(** A clean-up at the fifth minute, a request right after. *)
Lemma sweep_is_invisible_witness :
  (rateLimiter recipeRateLimiter (inr "203.0.113.7") 300001
     (sweep 300000 {[ inr "203.0.113.7" := {| windowStart := 0; count := 11 |} ]})).1
  = (rateLimiter recipeRateLimiter (inr "203.0.113.7") 300001
       {[ inr "203.0.113.7" := {| windowStart := 0; count := 11 |} ]}).1.
Proof.
  refine (proj1 (sweep_is_invisible recipeRateLimiter (inr "203.0.113.7") 300000 300001
                   {[ inr "203.0.113.7" := {| windowStart := 0; count := 11 |} ]}
                   (or_introl eq_refl) _)).
  discriminate.
Defined.

(** [n] requests of [k] at one time within its window: the first [10 - c]
    pass, and the count ends at [c + n]. *)
Lemma passed_repeat (k : key) (t : Z) (n : nat) (requests : gmap key window) (t0 c : Z) :
  requests !! k = Some {| windowStart := t0; count := c |} ->
  t - t0 <= 60000 -> 0 <= c ->
  (passed k (repeat (Recipe k t) n) requests).1 = Nat.min n (Z.to_nat (10 - c))
  /\ (passed k (repeat (Recipe k t) n) requests).2 !! k
     = Some {| windowStart := t0; count := c + Z.of_nat n |}.
Proof.
  revert requests c. induction n as [|n IH]; intros requests c Hk Ht Hc.
  - simpl. split; [done|]. by rewrite Z.add_0_r.
  - cbn [repeat passed step].
    rewrite (rateLimiter_same_window recipeRateLimiter k t requests _ Hk) by done.
    cbn [windowStart count max recipeRateLimiter].
    destruct (IH (<[k := {| windowStart := t0; count := c + 1 |}]> requests) (c + 1)
                (lookup_insert_eq _ _ _) Ht ltac:(lia)) as [Hn Hk'].
    destruct (passed k (repeat (Recipe k t) n) _) as [m requests'].
    cbn [fst snd is_recipe_of] in *.
    rewrite bool_decide_eq_true_2 by done. cbn [andb].
    split.
    + destruct (Z.ltb_spec 10 (c + 1)); cbn [negb]; lia.
    + rewrite Hk'. do 2 f_equal. lia.
Qed.

Lemma passed_app (k : key) (es es' : list event) (requests : gmap key window) :
  passed k (es ++ es') requests
  = ((passed k es requests).1 + (passed k es' (passed k es requests).2).1,
     (passed k es' (passed k es requests).2).2)%nat.
Proof.
  revert requests. induction es as [|e es IH]; intros requests; simpl.
  - by destruct (passed k es' requests).
  - destruct (step e requests) as [ok requests1]. rewrite IH.
    destruct (passed k es requests1) as [n requests2]. simpl.
    destruct (passed k es' requests2) as [n' requests3]. simpl.
    by destruct (is_recipe_of k e && ok).
Qed.

Lemma passed_cons_new_window (k : key) (t : Z) (es : list event)
    (requests : gmap key window) :
  match requests !! k with
  | Some data => 60000 < t - windowStart data
  | None => True
  end ->
  (passed k (Recipe k t :: es) requests).1
  = S (passed k es (<[k := {| windowStart := t; count := 1 |}]> requests)).1
  /\ (passed k (Recipe k t :: es) requests).2
     = (passed k es (<[k := {| windowStart := t; count := 1 |}]> requests)).2.
Proof.
  intros Hfresh. cbn [passed step].
  rewrite (rateLimiter_new_window recipeRateLimiter k t requests Hfresh).
  destruct (passed k es _) as [n requests']. cbn [fst snd is_recipe_of].
  rewrite bool_decide_eq_true_2 by done. done.
Qed.

(** X10.  The window is fixed, not sliding.  For a caller whose window
    opens at [t0], of [n] further requests at the window's last millisecond
    the first 9 pass, and of [m] requests one millisecond later, when the
    window is replaced, the first 10 pass: up to 20 requests pass in 60.001
    seconds, 19 of them within one millisecond. *)
Theorem burst_across_window_boundary (k : key) (t0 : Z) (n m : nat)
    (requests : gmap key window)
    (Hfresh : match requests !! k with
              | Some data => 60000 < t0 - windowStart data
              | None => True
              end) :
  (passed k (Recipe k t0 :: repeat (Recipe k (t0 + 60000)) n
               ++ repeat (Recipe k (t0 + 60001)) m) requests).1
  = (1 + Nat.min n 9 + Nat.min m 10)%nat.
Proof.
  rewrite (proj1 (passed_cons_new_window k t0 _ requests Hfresh)).
  rewrite passed_app. cbn [fst].
  destruct (passed_repeat k (t0 + 60000) n _ t0 1 (lookup_insert_eq requests k _)
              ltac:(lia) ltac:(lia)) as [Hfirst Hk].
  rewrite Hfirst. change (Z.to_nat (10 - 1)) with 9%nat.
  destruct m as [|m]; [cbn [repeat passed fst]; lia|].
  change (repeat (Recipe k (t0 + 60001)) (S m))
    with (Recipe k (t0 + 60001) :: repeat (Recipe k (t0 + 60001)) m).
  pose proof (passed_cons_new_window k (t0 + 60001) (repeat (Recipe k (t0 + 60001)) m)
                (passed k (repeat (Recipe k (t0 + 60000)) n)
                   (<[k := {| windowStart := t0; count := 1 |}]> requests)).2) as Hhead.
  rewrite Hk in Hhead. cbn [windowStart] in Hhead.
  destruct Hhead as [-> _]; [lia|].
  destruct (passed_repeat k (t0 + 60001) m
              (<[k := {| windowStart := t0 + 60001; count := 1 |}]>
                 (passed k (repeat (Recipe k (t0 + 60000)) n)
                    (<[k := {| windowStart := t0; count := 1 |}]> requests)).2)
              (t0 + 60001) 1
              (lookup_insert_eq _ k _) ltac:(lia) ltac:(lia)) as [-> _].
  change (Z.to_nat (10 - 1)) with 9%nat. lia.
Qed.

(** An address never seen before: 1, then 9, then 10. *)
Lemma burst_across_window_boundary_witness :
  (passed (inr "203.0.113.7")
     (Recipe (inr "203.0.113.7") 0 :: repeat (Recipe (inr "203.0.113.7") (0 + 60000)) 9
        ++ repeat (Recipe (inr "203.0.113.7") (0 + 60001)) 10) ∅).1 = 20%nat.
Proof. exact (burst_across_window_boundary (inr "203.0.113.7") 0 9 10 ∅ I). Defined.

End LimiterMore.

Section SharedWindow.
Import RateLimiter App.

(** The two limiters in front of a mounted endpoint are [limiters]. *)
Lemma mounted_limited (h : Routes.outside -> Routes.request -> Routes.run Routes.response)
    (w : Routes.outside) (req : Routes.request) (st : Routes.state) :
  mounted (Routes.limited h) w req st
  = let gate := limiters (Routes.req_user req) (Routes.req_ip req) (Routes.now_ms w)
                  (Routes.requests st) in
    if gate.1 then Routes.asyncHandler (h w req) (Routes.with_requests gate.2 st)
    else (Routes.Failed 429 (Some "Too many requests. Please try again later."),
          Routes.with_requests gate.2 st).
Proof.
  unfold mounted, Routes.limited, limiters.
  destruct (rateLimiter apiRateLimiter (key_of None (Routes.req_ip req)) (Routes.now_ms w)
              (Routes.requests st)) as [[|] rq]; cbn [fst snd]; [|done].
  cbn [Routes.requests Routes.with_requests Routes.req_user].
  by destruct (rateLimiter recipeRateLimiter
                 (key_of (Routes.req_user req) (Routes.req_ip req)) (Routes.now_ms w) rq)
       as [[|] rq'].
Qed.

(** With the count of the caller's address at [c], and within its window:
    each extraction request without a user adds two to the count, and
    those that find it at 8 or less pass. *)
Lemma served_within_window (ip : option string) (times : list Z)
    (requests : gmap key window) (t0 c : Z) :
  requests !! key_of None ip = Some {| windowStart := t0; count := c |} ->
  0 <= c ->
  Forall (fun t => t - t0 <= 60000) times ->
  served None ip times requests = Nat.min (length times) (Z.to_nat ((10 - c) / 2)).
Proof.
  revert requests c. induction times as [|t times IH]; intros requests c Hk Hc Htimes.
  - reflexivity.
  - inversion Htimes as [|? ? Ht Htimes']; subst.
    cbn [served length]. unfold limiters.
    rewrite (rateLimiter_same_window apiRateLimiter _ t requests _ Hk) by done.
    cbn [windowStart count max apiRateLimiter].
    destruct (Z.ltb_spec 100 (c + 1)) as [Hfull|Hroom]; cbn [negb].
    + rewrite (IH _ (c + 1) (lookup_insert_eq _ _ _)) by (done || lia).
      assert ((10 - c) / 2 < 0) by (apply Z.div_lt_upper_bound; lia).
      assert ((10 - (c + 1)) / 2 < 0) by (apply Z.div_lt_upper_bound; lia).
      lia.
    + rewrite (rateLimiter_same_window recipeRateLimiter _ t _ _ (lookup_insert_eq _ _ _))
        by done.
      cbn [windowStart count max recipeRateLimiter].
      rewrite insert_insert_eq.
      rewrite (IH _ (c + 1 + 1) (lookup_insert_eq _ _ _)) by (done || lia).
      replace (10 - (c + 1 + 1)) with ((10 - c) + (-1) * 2) by lia.
      rewrite Z.div_add by done.
      destruct (Z.ltb_spec 10 (c + 1 + 1)) as [Hover|Hunder]; cbn [negb].
      * assert ((10 - c) / 2 <= 0) by (apply Z.lt_succ_r, Z.div_lt_upper_bound; lia).
        lia.
      * assert (1 <= (10 - c) / 2) by (apply Z.div_le_lower_bound; lia).
        lia.
Qed.

(** X11.  The general limiter and the strict limiter count in one map, and
    a request without a user has the same key (its address) in both: each
    of its extraction requests is counted twice.  So of the extraction
    requests an address sends within one window only the first 5 reach a
    handler, not 10.  ([mounted] is the endpoint behind both limiters, and
    [limiters] is what it does to the map.) *)
Theorem anonymous_requests_count_twice (ip : option string) (t0 : Z) (times : list Z)
    (requests : gmap key window)
    (Hfresh : match requests !! key_of None ip with
              | Some data => 60000 < t0 - windowStart data
              | None => True
              end)
    (Hwithin : Forall (fun t => t - t0 <= 60000) times) :
  served None ip (t0 :: times) requests = Nat.min (S (length times)) 5
  /\ (limiters None ip t0 requests).2 !! key_of None ip
     = Some {| windowStart := t0; count := 2 |}.
Proof.
  cbn [served]. unfold limiters.
  rewrite (rateLimiter_new_window apiRateLimiter _ t0 requests Hfresh).
  cbn [negb max apiRateLimiter Z.ltb Z.compare Pos.compare Pos.compare_cont].
  rewrite (rateLimiter_same_window recipeRateLimiter _ t0 _ _ (lookup_insert_eq _ _ _))
    by (simpl; lia).
  cbn [windowStart count max recipeRateLimiter]. rewrite insert_insert_eq.
  split; [|cbn [snd]; by rewrite lookup_insert_eq].
  rewrite (served_within_window ip times _ t0 (1 + 1) (lookup_insert_eq _ _ _))
    by (done || lia).
  change ((10 - (1 + 1)) / 2) with 4.
  change (negb (10 <? 1 + 1)) with true. cbn iota. lia.
Qed.

(** One address, seven extraction requests in seven seconds: five are served. *)
Lemma anonymous_requests_count_twice_witness :
  served None (Some "203.0.113.7") [0; 1000; 2000; 3000; 4000; 5000; 6000] ∅ = 5%nat.
Proof.
  refine (proj1 (anonymous_requests_count_twice (Some "203.0.113.7") 0
                   [1000; 2000; 3000; 4000; 5000; 6000] ∅ I _)).
  repeat constructor; discriminate.
Defined.

End SharedWindow.

(** ** Finding the JSON object in a reply *)

Section Braces.
Import Text.

Lemma append_empty_l (s : string) : "" +:+ s = s.
Proof. reflexivity. Qed.

Lemma append_cons (c : ascii) (s t : string) : String c s +:+ t = String c (s +:+ t).
Proof. reflexivity. Qed.

Lemma append_assoc (s t u : string) : (s +:+ t) +:+ u = s +:+ t +:+ u.
Proof. induction s as [|c s IH]; [done|]. by rewrite !append_cons, IH. Qed.

Lemma append_empty_r (s : string) : s +:+ "" = s.
Proof. induction s as [|c s IH]; [done|]. by rewrite append_cons, IH. Qed.

Lemma from_open_brace_Some (s suffix : string) :
  from_open_brace s = Some suffix <->
  exists pre rest, s = pre +:+ suffix /\ suffix = String "{" rest /\ occurs "{" pre = false.
Proof.
  revert suffix. induction s as [|c s IH]; intros suffix; cbn [from_open_brace].
  - split; [discriminate|]. intros (pre & rest & Hs & -> & _). by destruct pre.
  - destruct (Ascii.eqb_spec c "{") as [->|Hc].
    + split.
      * intros [= <-]. by exists "", s.
      * intros (pre & rest & Hs & -> & Hpre).
        destruct pre as [|c' pre]; [by rewrite Hs|].
        rewrite append_cons in Hs. injection Hs as <- _.
        cbn [occurs] in Hpre. by rewrite Ascii.eqb_refl in Hpre.
    + rewrite IH. split.
      * intros (pre & rest & -> & -> & Hpre). exists (String c pre), rest.
        split; [done|]. split; [done|]. cbn [occurs]. rewrite Hpre.
        destruct (Ascii.eqb_spec "{" c); [congruence | done].
      * intros (pre & rest & Hs & -> & Hpre).
        destruct pre as [|c' pre]; [rewrite append_empty_l in Hs; congruence|].
        rewrite append_cons in Hs. injection Hs as <- ->. exists pre, rest.
        cbn [occurs] in Hpre. apply orb_false_iff in Hpre as [_ Hpre]. done.
Qed.

Lemma occurs_app (c : ascii) (s t : string) :
  occurs c (s +:+ t) = occurs c s || occurs c t.
Proof.
  induction s as [|a s IH]; [done|].
  rewrite append_cons. cbn [occurs]. by rewrite IH, orb_assoc.
Qed.

Lemma occurs_closing (c : ascii) (body post : string) :
  occurs c ((body +:+ String c "") +:+ post) = true.
Proof.
  rewrite !occurs_app. cbn [occurs]. rewrite Ascii.eqb_refl.
  by rewrite orb_true_r.
Qed.

Lemma upto_close_brace_None (s : string) :
  upto_close_brace s = None <-> occurs "}" s = false.
Proof.
  induction s as [|c s IH]; [done|]. cbn [upto_close_brace occurs].
  rewrite (Ascii.eqb_sym "}" c).
  destruct (upto_close_brace s) as [t|].
  - split; [discriminate|]. intros [_ Hs]%orb_false_iff.
    by apply IH in Hs.
  - destruct (Ascii.eqb c "}"); [done|]. cbn [orb]. by rewrite <- IH.
Qed.

Lemma upto_close_brace_Some (s found : string) :
  upto_close_brace s = Some found <->
  exists body post, s = found +:+ post /\ found = body +:+ "}" /\ occurs "}" post = false.
Proof.
  revert found. induction s as [|c s IH]; intros found; cbn [upto_close_brace].
  - split; [discriminate|].
    intros (body & post & Hs & -> & _). by destruct body.
  - split.
    + destruct (upto_close_brace s) as [t|] eqn:Ht.
      * intros [= <-].
        destruct (proj1 (IH t) eq_refl) as (body & post & -> & -> & Hpost).
        by exists (String c body), post.
      * destruct (Ascii.eqb_spec c "}") as [->|Hc]; [|discriminate].
        intros [= <-]. exists "", s. by apply upto_close_brace_None in Ht.
    + intros (body & post & Hs & -> & Hpost).
      destruct body as [|c' body].
      * rewrite append_empty_l, append_cons, append_empty_l in Hs.
        injection Hs as -> ->.
        apply upto_close_brace_None in Hpost. by rewrite Hpost.
      * rewrite !append_cons in Hs. injection Hs as <- ->.
        rewrite (proj2 (IH (body +:+ "}"))); [by rewrite append_cons|].
        by exists body, post.
Qed.

(** X12.  The pattern [/\{[\s\S]*\}/] finds the text from the first opening
    brace to the last closing brace: [match_braces text] is [m] exactly when
    [text] is [pre ++ m ++ post] with [m] of the form [{ ... }], no opening
    brace in [pre] and no closing brace in [post]; and it is [null] exactly
    when no opening brace of [text] has a closing brace after it. *)
Theorem match_braces_first_to_last (text : string) :
  (forall m,
     match_braces text = Some m <->
     exists pre body post,
       text = pre +:+ m +:+ post /\ m = "{" +:+ body +:+ "}"
       /\ occurs "{" pre = false /\ occurs "}" post = false)
  /\ (match_braces text = None <->
      forall pre body post, text <> pre +:+ "{" +:+ body +:+ "}" +:+ post).
Proof.
  assert (Hsome : forall m,
     match_braces text = Some m <->
     exists pre body post,
       text = pre +:+ m +:+ post /\ m = "{" +:+ body +:+ "}"
       /\ occurs "{" pre = false /\ occurs "}" post = false).
  { intros m. unfold match_braces. split.
    - destruct (from_open_brace text) as [suffix|] eqn:Hopen; [|discriminate].
      apply from_open_brace_Some in Hopen as (pre & rest & -> & -> & Hpre).
      intros (body & post & Hs & -> & Hpost)%upto_close_brace_Some.
      destruct body as [|c body].
      + rewrite append_empty_l, append_cons in Hs. discriminate.
      + rewrite !append_cons in Hs. injection Hs as <- ->.
        exists pre, body, post. rewrite !append_cons. by rewrite Hpre, Hpost.
    - intros (pre & body & post & -> & -> & Hpre & Hpost).
      rewrite (proj2 (from_open_brace_Some _ (("{" +:+ body +:+ "}") +:+ post))).
      + apply upto_close_brace_Some. exists (String "{" body), post. by rewrite Hpost.
      + exists pre, ((body +:+ "}") +:+ post). by rewrite Hpre. }
  split; [exact Hsome|].
  split.
  - intros Hnone pre body post ->.
    assert (Hfound : exists m, match_braces (pre +:+ "{" +:+ body +:+ "}" +:+ post) = Some m);
      [|destruct Hfound; congruence].
    clear Hsome Hnone. unfold match_braces.
    assert (Hopen : exists rest, from_open_brace (pre +:+ "{" +:+ body +:+ "}" +:+ post)
                                 = Some (String "{" rest)
                                 /\ exists body' post', rest = body' +:+ "}" +:+ post').
    { induction pre as [|c pre IH].
      - exists (body +:+ "}" +:+ post). split; [done|]. by exists body, post.
      - rewrite append_cons. cbn [from_open_brace].
        destruct (Ascii.eqb_spec c "{") as [->|]; [|exact IH].
        eexists. split; [done|].
        exists (pre +:+ "{" +:+ body), post. by rewrite !append_assoc. }
    destruct Hopen as (rest & -> & body' & post' & ->).
    destruct (upto_close_brace (String "{" (body' +:+ "}" +:+ post'))) as [m|] eqn:Hm;
      [by eexists|].
    apply upto_close_brace_None in Hm. cbn [occurs] in Hm.
    rewrite occurs_app, append_cons in Hm. cbn [occurs] in Hm.
    rewrite Ascii.eqb_refl in Hm.
    by destruct (Ascii.eqb "}" "{"), (occurs "}" body').
  - intros Hno. destruct (match_braces text) as [m|] eqn:Hm; [|done].
    destruct (proj1 (Hsome m) eq_refl) as (pre & body & post & Htext & -> & _).
    destruct (Hno pre body post). by rewrite Htext, !append_assoc.
Qed.

End Braces.

Section Fences.
Import Text.

Lemma prefix_other_first (c c' : ascii) (fence s : string) :
  c <> c' -> String.prefix (String c fence) (String c' s) = false.
Proof. intros Hne. simpl. by destruct (ascii_dec c c'). Qed.

(** Text without a backtick passes through the removal of a fence. *)
Lemma remove_fence_clean (fence s rest : string) :
  occurs "`" s = false ->
  remove_fence (String "`" fence) None (s +:+ rest)
  = s +:+ remove_fence (String "`" fence) None rest.
Proof.
  induction s as [|c s IH]; [done|].
  intros [Hc Hs]%orb_false_iff. rewrite !append_cons.
  cbn [remove_fence]. rewrite prefix_other_first.
  - by rewrite IH.
  - intros <-. by rewrite Ascii.eqb_refl in Hc.
Qed.

Lemma white_space_not_brace (c : ascii) :
  is_white_space c = true -> Ascii.eqb c "{" = false /\ Ascii.eqb c "}" = false.
Proof.
  intros Hc. split.
  - destruct (Ascii.eqb_spec c "{") as [->|]; [discriminate | done].
  - destruct (Ascii.eqb_spec c "}") as [->|]; [discriminate | done].
Qed.

Lemma trimEnd_white_space (s : string) (c : ascii) :
  is_white_space c = true -> trimEnd (s +:+ String c "") = trimEnd s.
Proof.
  intros Hc. induction s as [|a s IH].
  - simpl. by rewrite Hc.
  - rewrite append_cons. simpl. by rewrite IH.
Qed.

Lemma trim_white_space (s : string) (c : ascii) :
  is_white_space c = true -> trim (s +:+ String c "") = trim s.
Proof.
  intros Hc. unfold trim. induction s as [|a s IH].
  - simpl. by rewrite Hc.
  - rewrite append_cons. simpl. destruct (is_white_space a); [exact IH|].
    by rewrite <- append_cons, trimEnd_white_space.
Qed.

Lemma upto_close_brace_trimEnd (s : string) :
  upto_close_brace (trimEnd s) = upto_close_brace s.
Proof.
  induction s as [|c s IH]; [done|]. simpl.
  destruct (trimEnd s) as [|a t] eqn:Ht.
  - rewrite <- IH. simpl.
    destruct (is_white_space c) eqn:Hc; [|done].
    by rewrite (proj2 (white_space_not_brace c Hc)).
  - change (upto_close_brace (String c (String a t)))
      with (match upto_close_brace (String a t) with
            | Some found => Some (String c found)
            | None => if Ascii.eqb c "}" then Some (String c "") else None
            end).
    by rewrite IH.
Qed.

Lemma from_open_brace_trimEnd (s : string) :
  from_open_brace (trimEnd s) = trimEnd <$> from_open_brace s.
Proof.
  induction s as [|c s IH]; [done|].
  change (from_open_brace (String c s))
    with (if Ascii.eqb c "{" then Some (String c s) else from_open_brace s).
  destruct (Ascii.eqb c "{") eqn:Hc.
  - simpl. destruct (trimEnd s); simpl; rewrite ?Hc; [|done].
    destruct (is_white_space c) eqn:Hw; [|by simpl; rewrite Hc].
    apply white_space_not_brace in Hw as [Hw _]. congruence.
  - rewrite <- IH. simpl. destruct (trimEnd s) as [|a t].
    + by destruct (is_white_space c); simpl; rewrite ?Hc.
    + simpl. by rewrite Hc.
Qed.

Lemma match_braces_trim (s : string) : match_braces (trim s) = match_braces s.
Proof.
  unfold match_braces, trim. rewrite from_open_brace_trimEnd.
  assert (Hstart : from_open_brace (trimStart s) = from_open_brace s).
  { induction s as [|c s IH]; [done|]. simpl.
    destruct (is_white_space c) eqn:Hc; [|done].
    by rewrite (proj1 (white_space_not_brace c Hc)). }
  rewrite Hstart. destruct (from_open_brace s) as [suffix|]; [|done]. simpl.
  apply upto_close_brace_trimEnd.
Qed.

(** X13.  The code fence is transparent.  For a body without backticks,
    the reply fenced as three backticks, [json], a line feed, the body, a
    line feed and three backticks, the same reply with a bare fence, and the
    bare body all come out of the clean-up as the trimmed body, and in all
    three the text handed to [JSON.parse] is the text from the first opening
    brace to the last closing brace of the body. *)
Theorem fenced_reply_reads_as_its_body (body : string)
    (Hclean : occurs "`" body = false) :
  strip_fences (backticks +:+ "json" +:+ line_feed +:+ body +:+ line_feed +:+ backticks)
  = trim body
  /\ strip_fences (backticks +:+ line_feed +:+ body +:+ line_feed +:+ backticks) = trim body
  /\ strip_fences body = trim body
  /\ forall text,
       text ∈ [backticks +:+ "json" +:+ line_feed +:+ body +:+ line_feed +:+ backticks;
               backticks +:+ line_feed +:+ body +:+ line_feed +:+ backticks;
               body] ->
       Recipes.find_json {| Recipes.content := Some [Some text] |} = match_braces body.
Proof.
  assert (H1 : strip_fences
                 (backticks +:+ "json" +:+ line_feed +:+ body +:+ line_feed +:+ backticks)
               = trim body).
  { unfold strip_fences, backticks, line_feed.
    change ("```" +:+ "json" +:+ String newline "" +:+ body +:+ String newline "" +:+ "```")
      with (String "`" (String "`" (String "`" (String "j" (String "s" (String "o"
             (String "n" (String newline (body +:+ String newline "```"))))))))).
    change ("```" +:+ "json") with "```json".
    cbn [remove_fence String.prefix String.length Nat.sub].
    destruct (ascii_dec "`" "`"); [|done].
    destruct (ascii_dec "j" "j"); [|done].
    destruct (ascii_dec "s" "s"); [|done].
    destruct (ascii_dec "o" "o"); [|done].
    destruct (ascii_dec "n" "n"); [|done].
    rewrite Ascii.eqb_refl.
    rewrite (remove_fence_clean "``json" body _ Hclean).
    replace (remove_fence "```json" None (String newline "```")) with (String newline "```")
      by (vm_compute; reflexivity).
    rewrite (remove_fence_clean "``" body _ Hclean).
    replace (remove_fence "```" None (String newline "```")) with (String newline "")
      by (vm_compute; reflexivity).
    apply trim_white_space. reflexivity. }
  assert (H2 : strip_fences (backticks +:+ line_feed +:+ body +:+ line_feed +:+ backticks)
               = trim body).
  { unfold strip_fences, backticks, line_feed.
    change ("```" +:+ String newline "" +:+ body +:+ String newline "" +:+ "```")
      with (String "`" (String "`" (String "`" (String newline
             (body +:+ String newline "```"))))).
    change ("```" +:+ "json") with "```json".
    assert (Hfirst : remove_fence "```json" None
                       (String "`" (String "`" (String "`" (String newline
                          (body +:+ String newline "```")))))
                     = String "`" (String "`" (String "`" (String newline
                          (body +:+ String newline "```"))))).
    { cbn [remove_fence String.prefix].
      destruct (ascii_dec "`" "`"); [|done].
      destruct (ascii_dec "j" newline); [done|].
      destruct (ascii_dec "j" "`"); [done|].
      do 3 f_equal.
      destruct (ascii_dec "`" newline); [done|]. f_equal.
      rewrite (remove_fence_clean "``json" body _ Hclean). f_equal. }
    rewrite Hfirst.
    cbn [remove_fence String.prefix String.length Nat.sub].
    destruct (ascii_dec "`" "`"); [|done].
    rewrite Ascii.eqb_refl.
    rewrite (remove_fence_clean "``" body _ Hclean).
    replace (remove_fence "```" None (String newline "```")) with (String newline "")
      by (vm_compute; reflexivity).
    apply trim_white_space. reflexivity. }
  assert (H3 : strip_fences body = trim body).
  { unfold strip_fences, backticks.
    change ("```" +:+ "json") with "```json".
    pose proof (remove_fence_clean "``json" body "" Hclean) as Hjson.
    pose proof (remove_fence_clean "``" body "" Hclean) as Hbare.
    rewrite append_empty_r in Hjson, Hbare. simpl in Hjson, Hbare.
    rewrite append_empty_r in Hjson, Hbare.
    by rewrite Hjson, Hbare. }
  split; [exact H1|]. split; [exact H2|]. split; [exact H3|].
  intros text Htext. unfold Recipes.find_json, Recipes.response_text. simpl.
  rewrite !elem_of_cons, elem_of_nil in Htext.
  destruct Htext as [-> | [-> | [-> | []]]];
    rewrite ?H1, ?H2, ?H3; apply match_braces_trim.
Qed.

(** The stew, fenced. *)
Lemma fenced_reply_reads_as_its_body_witness :
  strip_fences (backticks +:+ "json" +:+ line_feed +:+ Sample.stew_json +:+ line_feed
                +:+ backticks) = trim Sample.stew_json.
Proof.
  exact (proj1 (fenced_reply_reads_as_its_body Sample.stew_json eq_refl)).
Defined.

End Fences.

(** ** The id of a video *)

Section VideoId.
Import Text Routes.

Lemma prefix_app (p s : string) :
  String.prefix p s = true <-> exists rest, s = p +:+ rest.
Proof.
  revert s. induction p as [|a p IH]; intros s.
  - split; [intros _; by exists s | intros _; by destruct s].
  - destruct s as [|b s]; cbn [String.prefix].
    + split; [done|]. intros [rest Hrest]. rewrite append_cons in Hrest. discriminate.
    + destruct (ascii_dec a b) as [->|Hne].
      * rewrite IH. split; intros [rest Hrest]; exists rest.
        -- by rewrite append_cons, Hrest.
        -- rewrite append_cons in Hrest. by injection Hrest.
      * split; [done|]. intros [rest Hrest]. rewrite append_cons in Hrest.
        injection Hrest as Hb _. congruence.
Qed.

Lemma drop_chars_app (p rest : string) : drop_chars (String.length p) (p +:+ rest) = rest.
Proof.
  induction p as [|a p IH]; [by destruct rest|].
  rewrite append_cons. cbn [String.length drop_chars]. exact IH.
Qed.

(** The run of id characters at the head of a string, and what follows it. *)
Lemma id_run_split (s : string) :
  exists after,
    s = id_run s +:+ after /\ all_chars id_char (id_run s) = true /\ id_run after = "".
Proof.
  induction s as [|c s (after & Hs & Hall & Hafter)]; [by exists ""|].
  cbn [id_run]. destruct (id_char c) eqn:Hc.
  - exists after. rewrite append_cons. cbn [all_chars]. rewrite Hc, Hall.
    split; [by rewrite <- Hs | done].
  - exists (String c s). split; [done|]. split; [done|]. cbn [id_run]. by rewrite Hc.
Qed.

Lemma id_here_Some (s videoId : string) :
  id_here s = Some videoId ->
  exists p rest,
    p ∈ video_prefixes /\ s = p +:+ rest /\ videoId = id_run rest /\ videoId <> "".
Proof.
  unfold id_here. cbv zeta. generalize video_prefixes as ps.
  induction ps as [|p ps IH]; cbn [foldr]; [done|].
  destruct (String.prefix p s) eqn:Hp.
  - destruct (proj1 (prefix_app p s) Hp) as [rest Hrest].
    destruct (id_run (drop_chars (String.length p) s)) as [|c run] eqn:Hrun.
    + intros Hfound. destruct (IH Hfound) as (p' & rest' & Hin & Hs & Hv & Hne).
      exists p', rest'. split; [by apply elem_of_cons; right | done].
    + intros [= <-]. exists p, rest. split; [by apply elem_of_cons; left|].
      split; [done|]. by rewrite Hrest, drop_chars_app in Hrun.
  - intros Hfound. destruct (IH Hfound) as (p' & rest' & Hin & Hs & Hv & Hne).
    exists p', rest'. split; [by apply elem_of_cons; right | done].
Qed.

Lemma id_here_None (s : string) :
  id_here s = None ->
  forall p rest, p ∈ video_prefixes -> s = p +:+ rest -> id_run rest = "".
Proof.
  unfold id_here. cbv zeta. generalize video_prefixes as ps.
  induction ps as [|p ps IH]; cbn [foldr]; intros Hnone p' rest Hin Hs.
  - by apply elem_of_nil in Hin.
  - apply elem_of_cons in Hin as [-> | Hin].
    + rewrite (proj2 (prefix_app p s)) in Hnone by (by exists rest).
      rewrite Hs, drop_chars_app in Hnone.
      by destruct (id_run rest).
    + apply (IH ltac:(by repeat case_match) p' rest Hin Hs).
Qed.

(** X8.  The id of a video.  When the pattern of [POST /clean-youtube]
    matches, the id it captures is not empty, holds none of the characters
    [&], [?], [#] and line feed, stands in the URL right after one of the
    four prefixes, and runs up to the end of the URL or the first such
    character; and the pattern fails exactly when no prefix in the URL is
    followed by a character an id may hold. *)
Theorem videoIdMatch_captures (url : string) :
  (forall videoId,
     videoIdMatch url = Some videoId ->
     videoId <> "" /\ all_chars id_char videoId = true
     /\ exists before p after,
          p ∈ video_prefixes /\ url = before +:+ p +:+ videoId +:+ after
          /\ id_run after = "")
  /\ (videoIdMatch url = None <->
      forall before p c after,
        p ∈ video_prefixes -> id_char c = true ->
        url <> before +:+ p +:+ String c after).
Proof.
  assert (Hsound : forall s videoId,
            videoIdMatch s = Some videoId ->
            videoId <> "" /\ all_chars id_char videoId = true
            /\ exists before p after,
                 p ∈ video_prefixes /\ s = before +:+ p +:+ videoId +:+ after
                 /\ id_run after = "").
  { intros s videoId. induction s as [|c s IH].
    - cbn [videoIdMatch].
      destruct (id_here "") as [v|] eqn:Hhere; [|done].
      intros [= ->].
      destruct (id_here_Some _ _ Hhere) as (p & rest & Hin & Hs & -> & Hne).
      destruct (id_run_split rest) as (after & Hrest & Hall & Hafter).
      split; [done|]. split; [done|]. exists "", p, after.
      split; [done|]. split; [|done]. by rewrite append_empty_l, <- Hrest.
    - cbn [videoIdMatch].
      destruct (id_here (String c s)) as [v|] eqn:Hhere.
      + intros [= ->].
        destruct (id_here_Some _ _ Hhere) as (p & rest & Hin & Hs & -> & Hne).
        destruct (id_run_split rest) as (after & Hrest & Hall & Hafter).
        split; [done|]. split; [done|]. exists "", p, after.
        split; [done|]. split; [|done]. by rewrite append_empty_l, <- Hrest.
      + intros Hfound.
        destruct (IH Hfound) as (Hne & Hall & before & p & after & Hin & Hs & Hafter).
        split; [done|]. split; [done|]. exists (String c before), p, after.
        split; [done|]. split; [|done]. by rewrite append_cons, <- Hs. }
  split; [apply Hsound|].
  split.
  - induction url as [|c url IH]; cbn [videoIdMatch].
    + intros _ before p ch after Hin Hch Hurl.
      destruct before; [|by rewrite append_cons in Hurl].
      rewrite append_empty_l in Hurl.
      assert (Hp : p <> "").
      { intros ->. unfold video_prefixes in Hin.
        rewrite !elem_of_cons, elem_of_nil in Hin. intuition discriminate. }
      destruct p; [done|]. by rewrite append_cons in Hurl.
    + destruct (id_here (String c url)) as [v|] eqn:Hhere; [done|].
      intros Hnone before p ch after Hin Hch Hurl.
      destruct before as [|b before].
      * rewrite append_empty_l in Hurl.
        pose proof (id_here_None _ Hhere p (String ch after) Hin Hurl) as Hrun.
        cbn [id_run] in Hrun. by rewrite Hch in Hrun.
      * rewrite append_cons in Hurl. injection Hurl as _ Hurl.
        exact (IH Hnone before p ch after Hin Hch Hurl).
  - intros Hno. destruct (videoIdMatch url) as [videoId|] eqn:Hfound; [|done].
    destruct (Hsound _ _ Hfound) as (Hne & Hall & before & p & after & Hin & Hurl & _).
    destruct videoId as [|ch videoId]; [done|].
    cbn [all_chars] in Hall. apply andb_true_iff in Hall as [Hch _].
    destruct (Hno before p ch (videoId +:+ after) Hin Hch).
    by rewrite Hurl, append_cons.
Qed.

End VideoId.

(** ** What the validator leaves behind *)

Section Shaped.
Context {rt : Runtime}.
Import Recipes Shape.

Lemma set_prop_lookup (k : string) (v : jsval) (o : obj) :
  lookup_prop k o = v -> v <> VUndefined -> set_prop k v o = o.
Proof.
  intros Hv Hdef. induction o as [|[k' v'] o IH]; simpl in *.
  - congruence.
  - destruct (String.eqb k k'); [by rewrite Hv | by rewrite IH].
Qed.

Lemma truthy_defined (v : jsval) : truthy v = true -> v <> VUndefined.
Proof. by intros Hv ->. Qed.

Lemma set_default_fixed (k : string) (bad : jsval -> bool) (d : jsval) (o : obj) :
  bad (lookup_prop k o) = false -> set_default k bad d o = o.
Proof. unfold set_default. by intros ->. Qed.

Lemma set_default_good (k : string) (bad : jsval -> bool) (d : jsval) (o : obj) :
  bad d = false -> bad (lookup_prop k (set_default k bad d o)) = false.
Proof.
  intros Hd. unfold set_default.
  destruct (bad (lookup_prop k o)) eqn:E; [by rewrite lookup_set_prop_eq | done].
Qed.

(** Every step that comes out of the coercion is an object with truthy
    [ingredients]. *)
Lemma coerce_step_ingredients (s s' : jsval) :
  coerce_step s = Ok s' ->
  exists o, s' = VObj o /\ truthy (lookup_prop "ingredients" o) = true.
Proof.
  destruct s as [| |b|f|i|l|o]; simpl; try discriminate;
    intros [= <-]; eexists; (split; [reflexivity|]);
    rewrite ?lookup_set_prop_eq; try done.
  by destruct (truthy (lookup_prop "ingredients" o)) eqn:E.
Qed.

Lemma mapM_coerce_step (steps coerced : list jsval) :
  mapM coerce_step steps = Ok coerced ->
  Forall (fun s' => exists o, s' = VObj o /\ truthy (lookup_prop "ingredients" o) = true)
         coerced.
Proof.
  revert coerced. induction steps as [|s steps IH]; intros coerced; simpl.
  - intros [= <-]. constructor.
  - destruct (coerce_step s) as [s'|] eqn:Hs; [|discriminate]. simpl.
    destruct (mapM coerce_step steps) as [rest|]; [|discriminate]. simpl.
    intros [= <-]. constructor; [by eapply coerce_step_ingredients | by apply IH].
Qed.

Lemma kept_step_in_shape (s : jsval) :
  (exists o, s = VObj o /\ truthy (lookup_prop "ingredients" o) = true) ->
  keeps_step s = Ok true -> step_in_shape s = true.
Proof.
  intros (o & -> & Hing). unfold keeps_step, step_in_shape. cbn [get mbind]. rewrite Hing.
  simpl. destruct (lookup_prop "instruction" o); try discriminate.
  intros [= ->]. done.
Qed.

Lemma filter_steps_in_shape (coerced kept : list jsval) :
  Forall (fun s' => exists o, s' = VObj o /\ truthy (lookup_prop "ingredients" o) = true)
         coerced ->
  filter_steps coerced = Ok kept -> forallb step_in_shape kept = true.
Proof.
  intros Hall. revert kept. induction Hall as [|s steps Hs Hall IH]; intros kept; simpl.
  - by intros [= <-].
  - destruct (keeps_step s) as [b|] eqn:Hb; [|discriminate]. simpl.
    destruct (filter_steps steps) as [kept'|]; [|discriminate]. simpl.
    intros [= <-]. destruct b; [|by apply IH]. cbn [forallb].
    by rewrite (IH _ eq_refl), (kept_step_in_shape s Hs Hb).
Qed.

(** A successful validation leaves the recipe in shape. *)
Lemma validated_in_shape (recipe validated : obj) (issues : list string) :
  validateAndFixRecipe recipe = Ok (validated, issues) -> in_shape validated = true.
Proof.
  unfold validateAndFixRecipe.
  remember (set_default "title" (fun v => negb (truthy v)) (VStr "Recipe") recipe) as r1 eqn:E1.
  remember (set_default "servings" (fun v => negb (truthy v)) (VNum 4) r1) as r2 eqn:E2.
  remember (set_default "ingredients" not_array (VArr []) r2) as r3 eqn:E3.
  remember (set_default "steps" not_array (VArr []) r3) as r4 eqn:E4.
  destruct (some_too_long _) as [long|]; [|discriminate]. simpl.
  destruct (mapM coerce_step _) as [coerced|] eqn:Hmap; [|discriminate]. simpl.
  destruct (filter_steps coerced) as [kept|] eqn:Hkept; [|discriminate]. simpl.
  intros [= <- _]. unfold in_shape.
  rewrite lookup_set_prop_eq, !(lookup_set_prop_ne _ "steps") by done.
  rewrite (filter_steps_in_shape _ _ (mapM_coerce_step _ _ Hmap) Hkept).
  assert (Htitle : truthy (lookup_prop "title" r4) = true).
  { rewrite E4, E3, E2, !lookup_set_default_ne by done. apply negb_false_iff.
    rewrite E1. by apply (set_default_good "title" (fun v => negb (truthy v))). }
  assert (Hservings : truthy (lookup_prop "servings" r4) = true).
  { rewrite E4, E3, !lookup_set_default_ne by done. apply negb_false_iff.
    rewrite E2. by apply (set_default_good "servings" (fun v => negb (truthy v))). }
  assert (Hingredients : isArray (lookup_prop "ingredients" r4) = true).
  { rewrite E4, lookup_set_default_ne by done.
    pose proof (set_default_good "ingredients" not_array (VArr []) r2 eq_refl) as Hgood.
    rewrite <- E3 in Hgood. unfold not_array in Hgood.
    apply orb_false_iff in Hgood as [_ Hgood]. by apply negb_false_iff. }
  by rewrite Htitle, Hservings, Hingredients.
Qed.

Lemma in_shape_not_thrown (steps : list jsval) :
  forallb step_in_shape steps = true -> exists long, some_too_long steps = Ok long.
Proof.
  induction steps as [|s steps IH]; [by eexists|].
  cbn [forallb]. intros [Hs Hall]%andb_true_iff.
  destruct s as [| | | | | |o]; try discriminate.
  destruct (IH Hall) as [long Hlong].
  exists (length_gt (lookup_prop "instruction" o) MAX_STEP_LENGTH || long).
  change (some_too_long (VObj o :: steps))
    with (if length_gt (lookup_prop "instruction" o) MAX_STEP_LENGTH
          then Ok true else some_too_long steps).
  rewrite Hlong. by destruct (length_gt _ _).
Qed.

Lemma in_shape_coerced (steps : list jsval) :
  forallb step_in_shape steps = true -> mapM coerce_step steps = Ok steps.
Proof.
  induction steps as [|s steps IH]; [done|].
  cbn [forallb]. intros [Hs Hall]%andb_true_iff.
  destruct s as [| | | | | |o]; try discriminate.
  apply andb_true_iff in Hs as [_ Hing].
  change (mapM coerce_step (VObj o :: steps))
    with (y ← coerce_step (VObj o); k ← mapM coerce_step steps; mret (y :: k)).
  rewrite (IH Hall). unfold coerce_step. cbn [get spread]. simpl. rewrite Hing.
  by rewrite (set_prop_lookup "ingredients" _ o eq_refl (truthy_defined _ Hing)).
Qed.

Lemma in_shape_kept (steps : list jsval) :
  forallb step_in_shape steps = true -> filter_steps steps = Ok steps.
Proof.
  induction steps as [|s steps IH]; [done|].
  cbn [forallb]. intros [Hs Hall]%andb_true_iff.
  destruct s as [| | | | | |o]; try discriminate.
  apply andb_true_iff in Hs as [Hins _].
  cbn [filter_steps]. rewrite (IH Hall). unfold keeps_step. cbn [get]. simpl.
  destruct (lookup_prop "instruction" o); try discriminate.
  simpl. by rewrite Hins.
Qed.

(** A recipe in shape passes through the validator unchanged. *)
Lemma in_shape_fixed (recipe : obj) :
  in_shape recipe = true -> exists issues, validateAndFixRecipe recipe = Ok (recipe, issues).
Proof.
  unfold in_shape. rewrite !andb_true_iff. intros [[[Ht Hs] Hi] Hsteps].
  destruct (lookup_prop "steps" recipe) as [| | | | |steps|] eqn:Hst; try discriminate.
  unfold validateAndFixRecipe.
  rewrite (set_default_fixed "title") by (by rewrite Ht).
  rewrite (set_default_fixed "servings") by (by rewrite Hs).
  rewrite (set_default_fixed "ingredients")
    by (unfold not_array; by destruct (lookup_prop "ingredients" recipe)).
  rewrite (set_default_fixed "steps") by (unfold not_array; by rewrite Hst).
  rewrite Hst. cbn [elements].
  destruct (in_shape_not_thrown steps Hsteps) as [long ->].
  rewrite (in_shape_coerced steps Hsteps). simpl.
  rewrite (in_shape_kept steps Hsteps). simpl.
  rewrite (set_prop_lookup "steps" _ recipe Hst) by done.
  by eexists.
Qed.

(** X14.  Validation settles at once.  The recipe that
    [validateAndFixRecipe] returns has a truthy title and servings, an array
    of ingredients, and steps that are all objects with an instruction of
    more than ten characters once trimmed and truthy ingredients; validating
    it again does not throw and returns the very same recipe. *)
Theorem validateAndFixRecipe_settles (recipe validated : obj) (issues : list string)
    (Hrun : validateAndFixRecipe recipe = Ok (validated, issues)) :
  in_shape validated = true
  /\ exists issues', validateAndFixRecipe validated = Ok (validated, issues').
Proof.
  pose proof (validated_in_shape recipe validated issues Hrun) as Hshape.
  split; [exact Hshape|]. by apply in_shape_fixed.
Qed.

End Shaped.

(** On the stew with one step given as a string. *)
Lemma validateAndFixRecipe_settles_witness :
  exists validated issues',
    Recipes.validateAndFixRecipe (rt := Sample.runtime) Sample.six_ingredient_recipe
      = Ok (validated, ["too_few_steps"])
    /\ Shape.in_shape validated = true
    /\ Recipes.validateAndFixRecipe (rt := Sample.runtime) validated = Ok (validated, issues').
Proof.
  assert (Hrun : Recipes.validateAndFixRecipe (rt := Sample.runtime) Sample.six_ingredient_recipe
                 = Ok (set_prop "steps"
                         (VArr [VObj [("instruction",
                                       VStr "Put everything in a pot and simmer for two hours.");
                                      ("ingredients", VArr [])]])
                         (set_prop "servings" (VNum 4) Sample.six_ingredient_recipe),
                       ["too_few_steps"])) by (vm_compute; reflexivity).
  destruct (validateAndFixRecipe_settles (rt := Sample.runtime) _ _ _ Hrun)
    as [Hshape [issues' Hagain]].
  eexists _, issues'. split; [exact Hrun|]. split; [exact Hshape | exact Hagain].
Defined.
